(** * iiko-api: the session client and its error taxonomy

    A shallow embedding of [src/client.ts] (class [IikoClient]) and
    [src/errors.ts] (classes [IikoApiError], [IikoAuthError],
    [IikoRateLimitError]), with the declarations of [src/types] they use.

    - A JavaScript string is the list of its UTF-16 code units.
    - The Numbers the client handles come out of [parseInt]: they are
      NaN, an infinity, or an integer-valued double (sign and magnitude,
      so that -0 is told from +0).
    - Methods of the class run in a state-and-exception monad over a
      [World]: the client object [this] and the list of requests that
      were handed to the transport so far. *)

From Stdlib Require Import ZArith NArith String Ascii List Lia Bool DecimalPos.
From stdpp Require Import base option list gmap.

Open Scope N_scope.

(** ** JavaScript strings *)

Abbreviation JSString := (list N).

(** A string literal of the source. *)
Definition lit (s : string) : JSString :=
  List.map N_of_ascii (list_ascii_of_string s).

(** ECMAScript WhiteSpace and LineTerminator code points: what
    [String.prototype.trim] strips and [parseInt] skips. *)
Definition isWhiteSpace (c : N) : bool :=
  (c =? 0x09) || (c =? 0x0A) || (c =? 0x0B) || (c =? 0x0C) || (c =? 0x0D)
  || (c =? 0x20) || (c =? 0xA0) || (c =? 0x1680)
  || ((0x2000 <=? c) && (c <=? 0x200A))
  || (c =? 0x2028) || (c =? 0x2029) || (c =? 0x202F) || (c =? 0x205F)
  || (c =? 0x3000) || (c =? 0xFEFF).

Fixpoint trimStart (s : JSString) : JSString :=
  match s with
  | c :: s' => if isWhiteSpace c then trimStart s' else s
  | [] => []
  end.

Definition trimEnd (s : JSString) : JSString :=
  rev (trimStart (rev s)).

(** [s.trim()] *)
Definition trim (s : JSString) : JSString :=
  trimEnd (trimStart s).

(** [s === ""] *)
Definition isEmptyString (s : JSString) : bool :=
  match s with [] => true | _ :: _ => false end.

(** ToBoolean on a string: every string but the empty one is truthy. *)
Definition truthy (s : JSString) : bool := negb (isEmptyString s).

(** ToBoolean on [string | null] and on [string | undefined]. *)
Definition truthyOpt (o : option JSString) : bool :=
  match o with Some s => truthy s | None => false end.

(** ** Numbers returned by [parseInt] *)

Inductive JSNumber : Type :=
| NaN
| Infinity (negative : bool)
| Finite (negative : bool) (magnitude : N).

(** Round-to-nearest, ties-to-even, of a natural number to a double
    (53 significant bits, overflow at 2^1024). *)
Definition roundToDouble (negative : bool) (m : N) : JSNumber :=
  if m <? 2 ^ 53 then Finite negative m
  else
    let e := N.log2 m - 52 in
    let q := N.shiftr m e in
    let r := m - N.shiftl q e in
    let half := 2 ^ (e - 1) in
    let q' := if r <? half then q
              else if half <? r then q + 1
              else if N.even q then q else q + 1 in
    let v := N.shiftl q' e in
    if v <? 2 ^ 1024 then Finite negative v else Infinity negative.

(** The value of a decimal digit, if the code unit is one. *)
Definition digitValue (c : N) : option N :=
  if (0x30 <=? c) && (c <=? 0x39) then Some (c - 0x30) else None.

(** Reads the longest prefix of decimal digits, most significant first;
    [acc] is the value read so far and [seen] tells whether a digit was
    read. *)
Fixpoint readDigits (s : JSString) (acc : N) (seen : bool) : option N :=
  match s with
  | c :: s' =>
      match digitValue c with
      | Some d => readDigits s' (10 * acc + d) true
      | None => if seen then Some acc else None
      end
  | [] => if seen then Some acc else None
  end.

(** [parseInt(s, 10)]: skip leading white space, read an optional sign,
    then the longest prefix of decimal digits; NaN when there is none.
    With radix 10 no "0x" prefix is stripped. The integer read becomes
    the nearest double (past twenty digits ECMAScript lets an engine
    read the later digits as zeros; here all digits are read). *)
Definition parseInt10 (s : JSString) : JSNumber :=
  let S := trimStart s in
  let negative := match S with c :: _ => c =? 0x2D | [] => false end in
  let S := match S with
           | c :: S' => if (c =? 0x2B) || (c =? 0x2D) then S' else S
           | [] => S
           end in
  match readDigits S 0 false with
  | None => NaN
  | Some mathInt =>
      if mathInt =? 0 then Finite negative 0 else roundToDouble negative mathInt
  end.


(** ** src/types: data shapes *)

Module Types.

(** A value the client carries without ever inspecting it (a field
    typed [unknown], a coordinate, an amount), kept as its JSON text. *)
Definition JSONText : Type := JSString.

Record IikoClientOptions : Type := {
  baseUrl : option JSString;
  timeout : option Z
}.

(** The record [authenticate] builds has the token only. *)
Record AuthResponse : Type := { token : JSString }.

Record ApiErrorResponse : Type := {
  errorCode : option JSString;
  message : option JSString;
  details : option JSONText
}.

Record GetOrganizationsRequest : Type := {
  organizationIds : option (list JSString);
  returnAdditionalInfo : option bool;
  includeDisabled : option bool
}.

Record Organization : Type := {
  id : JSString;
  name : JSString;
  country : option JSString;
  restaurantAddress : option JSString;
  latitude : option JSONText;
  longitude : option JSONText;
  useUTCOffset : option bool;
  utcOffset : option JSONText;
  currencyIsoName : option JSString;
  currencyMinimumDenomination : option JSONText;
  isDisabled : option bool
}.

Record GetOrganizationsResponse : Type := {
  correlationId : JSString;
  organizations : list Organization
}.

(** The object literal [{}] at the two optional-field types. *)
Definition emptyOptions : IikoClientOptions :=
  {| baseUrl := None; timeout := None |}.

Definition emptyRequest : GetOrganizationsRequest :=
  {| organizationIds := None; returnAdditionalInfo := None;
     includeDisabled := None |}.

End Types.

(** ** src/errors.ts *)

Module Errors.

(** The class an error object was constructed by. *)
Inductive ErrorClass : Type :=
| IikoApiError
| IikoAuthError
| IikoRateLimitError.

(** [e instanceof C]: the two subclasses extend [IikoApiError]. *)
Definition instanceOf (c parent : ErrorClass) : bool :=
  match parent, c with
  | IikoApiError, _ => true
  | IikoAuthError, IikoAuthError => true
  | IikoRateLimitError, IikoRateLimitError => true
  | _, _ => false
  end.

(** An error object. [retryAfter] exists on [IikoRateLimitError] only;
    read on another class it is [undefined], as when it was set to
    [undefined]. *)
Record IikoError : Type := {
  class : ErrorClass;
  name : JSString;
  message : JSString;
  statusCode : Z;
  errorCode : option JSString;
  response : option Types.ApiErrorResponse;
  retryAfter : option JSNumber
}.

(** [new IikoApiError(message, statusCode, errorCode?, response?)] *)
Definition new_IikoApiError (message : JSString) (statusCode : Z)
    (errorCode : option JSString)
    (response : option Types.ApiErrorResponse) : IikoError :=
  {| class := IikoApiError;
     name := lit "IikoApiError";
     message := message;
     statusCode := statusCode;
     errorCode := errorCode;
     response := response;
     retryAfter := None |}.

(** The object after a subclass constructor has run [super(...)] and
    then [this.name = n]. *)
Definition subclass (c : ErrorClass) (n : JSString) (super : IikoError)
    : IikoError :=
  {| class := c;
     name := n;
     message := message super;
     statusCode := statusCode super;
     errorCode := errorCode super;
     response := response super;
     retryAfter := retryAfter super |}.

(** [this.retryAfter = r] *)
Definition set_retryAfter (r : option JSNumber) (e : IikoError) : IikoError :=
  {| class := class e;
     name := name e;
     message := message e;
     statusCode := statusCode e;
     errorCode := errorCode e;
     response := response e;
     retryAfter := r |}.

(** [new IikoAuthError(message, response?)] *)
Definition new_IikoAuthError (message : JSString)
    (response : option Types.ApiErrorResponse) : IikoError :=
  subclass IikoAuthError (lit "IikoAuthError")
    (new_IikoApiError message 401%Z (Some (lit "AUTH_ERROR")) response).

(** [new IikoRateLimitError(message, retryAfter?, response?)] *)
Definition new_IikoRateLimitError (message : JSString)
    (retryAfter : option JSNumber)
    (response : option Types.ApiErrorResponse) : IikoError :=
  set_retryAfter retryAfter
    (subclass IikoRateLimitError (lit "IikoRateLimitError")
       (new_IikoApiError message 429%Z (Some (lit "RATE_LIMIT")) response)).

End Errors.

(** ** The axios boundary

    The HTTP library is outside the repository.  What the client sees of
    it: a request it hands over, and either a response or an [AxiosError]
    coming back. *)

Module Axios.

Inductive Method : Type := GET | POST.

(** The request bodies the client sends (the [data] argument is typed
    [unknown] in the source). *)
Inductive RequestBody : Type :=
| AccessTokenBody (apiLogin : JSString)
| OrganizationsBody (request : Types.GetOrganizationsRequest).

(** The instance defaults given to [axios.create]. *)
Record InstanceConfig : Type := {
  baseURL : JSString;
  timeout : Z;
  defaultHeaders : gmap JSString JSString
}.

(** A request as it reaches the transport: the instance defaults merged
    with the call's own arguments. *)
Record Request : Type := {
  req_method : Method;
  req_baseURL : JSString;
  req_url : JSString;
  req_data : option RequestBody;
  req_headers : gmap JSString JSString;
  req_timeout : Z
}.

Record AxiosResponse (T : Type) : Type := {
  status : Z;
  data : T;
  headers : gmap JSString JSString
}.
Arguments status {T} _.
Arguments data {T} _.
Arguments headers {T} _.

(** [AxiosError<T>]: [message] is a string for an error axios built, but
    the client's handler also provides for its absence. *)
Record AxiosError (T : Type) : Type := {
  message : option JSString;
  response : option (AxiosResponse T)
}.
Arguments message {T} _.
Arguments response {T} _.

(** The request an instance builds for one call: the call's headers
    take precedence over the instance's. *)
Definition mergeConfig (cfg : InstanceConfig) (method : Method)
    (url : JSString) (body : option RequestBody)
    (config_headers : gmap JSString JSString) : Request :=
  {| req_method := method;
     req_baseURL := baseURL cfg;
     req_url := url;
     req_data := body;
     req_headers := config_headers ∪ defaultHeaders cfg;
     req_timeout := timeout cfg |}.

(** What the network does with one request whose response body the
    caller reads at type [T]. *)
Definition Transport (T : Type) : Type :=
  Request -> AxiosResponse T + AxiosError Types.ApiErrorResponse.

End Axios.

(** ** src/client.ts *)

Import Axios.

Definition DEFAULT_BASE_URL : JSString := lit "https://api-ru.iiko.services".
Definition DEFAULT_TIMEOUT : Z := 30000%Z.

(** The fields of an [IikoClient] object. *)
Record IikoClient : Type := {
  apiKey : JSString;
  httpClient : InstanceConfig;
  accessToken : option JSString
}.

(** What a method can throw: the plain [Error] of the constructor, or one
    of the typed errors of [Errors]. *)
Inductive Thrown : Type :=
| JSError (message : JSString)
| IikoThrown (e : Errors.IikoError).

(** *** Handle API errors and convert them to typed errors

    The method never returns; the value of [handleError] is the error it
    throws. *)
Definition handleError (error : AxiosError Types.ApiErrorResponse)
    : Errors.IikoError :=
  let status := default 500%Z (status <$> response error) in
  let data := data <$> response error in
  let message :=
    match data ≫= Types.message with
    | Some m => m
    | None =>
        match message error with
        | Some m => m
        | None => lit "An unknown error occurred"
        end
    end in
  if (status =? 401)%Z then
    Errors.new_IikoAuthError message data
  else if (status =? 429)%Z then
    let retryAfter := response error ≫= (fun r => headers r !! lit "retry-after") in
    Errors.new_IikoRateLimitError message
      (match retryAfter with
       | Some h => if truthy h then Some (parseInt10 h) else None
       | None => None
       end)
      data
  else
    Errors.new_IikoApiError message status (data ≫= Types.errorCode) data.

(** *** Construction *)

(** [new IikoClient(apiKey, options = {})] *)
Definition new_IikoClient (apiKey : JSString)
    (options : option Types.IikoClientOptions) : Thrown + IikoClient :=
  let options := default Types.emptyOptions options in
  if negb (truthy apiKey) || isEmptyString (trim apiKey) then
    inl (JSError (lit "API key is required"))
  else
    inr {| apiKey := apiKey;
           httpClient :=
             {| baseURL := default DEFAULT_BASE_URL (Types.baseUrl options);
                timeout := default DEFAULT_TIMEOUT (Types.timeout options);
                defaultHeaders :=
                  {[ lit "Content-Type" := lit "application/json" ]} |};
           accessToken := None |}.

(** *** The monad of the methods *)

(** The client object and the requests handed to the transport so far,
    oldest first. *)
Record World : Type := {
  this : IikoClient;
  wire : list Request
}.

Definition M (A : Type) : Type := World -> (Thrown + A) * World.

Definition ret {A} (a : A) : M A := fun w => (inr a, w).

Definition throw {A} (t : Thrown) : M A := fun w => (inl t, w).

Definition bind {A B} (m : M A) (k : A -> M B) : M B :=
  fun w =>
    match m w with
    | (inr a, w') => k a w'
    | (inl t, w') => (inl t, w')
    end.

Declare Scope client_scope.
Delimit Scope client_scope with client.
Notation "x <- m ;; k" := (bind m (fun x => k))
  (at level 100, m at next level, right associativity) : client_scope.
Notation "m ;; k" := (bind m (fun _ => k))
  (at level 100, right associativity) : client_scope.
Open Scope client_scope.

(** Read a field of [this]. *)
Definition read {A} (field : IikoClient -> A) : M A :=
  fun w => (inr (field (this w)), w).

(** The client object with [t] for its token; the key and the http
    client are [readonly]. *)
Definition withToken (c : IikoClient) (t : option JSString) : IikoClient :=
  {| apiKey := apiKey c; httpClient := httpClient c; accessToken := t |}.

(** [this.accessToken = t] *)
Definition set_accessToken (t : option JSString) : M unit :=
  fun w => (inr tt, {| this := withToken (this w) t; wire := wire w |}).

(** Hand a request to the transport: it is recorded on the wire, and the
    promise settles with a response or is rejected with an [AxiosError]. *)
Definition send {T} (net : Transport T) (req : Request)
    : M (AxiosResponse T + AxiosError Types.ApiErrorResponse) :=
  fun w => (inr (net req), {| this := this w; wire := wire w ++ [req] |}).

(** A request through [this.httpClient], with the response interceptors
    the constructor installed: a response passes unchanged, a rejection
    goes through [handleError]. *)
Definition httpClient_request {T} (net : Transport T) (method : Method)
    (url : JSString) (body : option RequestBody)
    (config_headers : gmap JSString JSString) : M (AxiosResponse T) :=
  cfg <- read httpClient ;;
  settled <- send net (mergeConfig cfg method url body config_headers) ;;
  match settled with
  | inl response => ret response
  | inr error => throw (IikoThrown (handleError error))
  end.

(** *** Public and protected methods *)

Definition authenticate (net : Transport JSString) : M Types.AuthResponse :=
  key <- read apiKey ;;
  response <- httpClient_request net POST (lit "/api/1/access_token")
                (Some (AccessTokenBody key)) ∅ ;;
  set_accessToken (Some (data response)) ;;
  (* [this.accessToken] was assigned on the line before *)
  ret {| Types.token := data response |}.

Definition isAuthenticated : M bool :=
  token <- read accessToken ;;
  ret (match token with Some _ => true | None => false end).

Definition getAccessToken : M (option JSString) :=
  read accessToken.

Definition ensureAuthenticated : M unit :=
  token <- read accessToken ;;
  if negb (truthyOpt token) then
    throw (IikoThrown
      (Errors.new_IikoAuthError
         (lit "Not authenticated. Call authenticate() first.") None))
  else ret tt.

(** The template literal prints a null token as "null". *)
Definition getAuthHeaders : M (gmap JSString JSString) :=
  token <- read accessToken ;;
  ret {[ lit "Authorization" :=
           lit "Bearer " ++ default (lit "null") token ]}.

Definition get {T} (net : Transport T) (endpoint : JSString) : M T :=
  ensureAuthenticated ;;
  auth <- getAuthHeaders ;;
  response <- httpClient_request net GET endpoint None auth ;;
  ret (data response).

Definition post {T} (net : Transport T) (endpoint : JSString)
    (body : option RequestBody) : M T :=
  ensureAuthenticated ;;
  auth <- getAuthHeaders ;;
  response <- httpClient_request net POST endpoint body auth ;;
  ret (data response).

(** [getOrganizations(request = {})] *)
Definition getOrganizations (net : Transport Types.GetOrganizationsResponse)
    (request : option Types.GetOrganizationsRequest)
    : M Types.GetOrganizationsResponse :=
  let request := default Types.emptyRequest request in
  post net (lit "/api/1/organizations") (Some (OrganizationsBody request)).

(** *** Sessions: a caller's sequence of calls on one client *)

(** One call of the public interface, with the behaviour of the network
    during it. *)
Inductive Call : Type :=
| Authenticate (net : Transport JSString)
| IsAuthenticated
| GetAccessToken
| GetOrganizations (net : Transport Types.GetOrganizationsResponse)
    (request : option Types.GetOrganizationsRequest).

Inductive Value : Type :=
| AuthValue (r : Types.AuthResponse)
| BoolValue (b : bool)
| TokenValue (t : option JSString)
| OrganizationsValue (r : Types.GetOrganizationsResponse).

Definition call (c : Call) : M Value :=
  match c with
  | Authenticate net => r <- authenticate net ;; ret (AuthValue r)
  | IsAuthenticated => b <- isAuthenticated ;; ret (BoolValue b)
  | GetAccessToken => t <- getAccessToken ;; ret (TokenValue t)
  | GetOrganizations net request =>
      r <- getOrganizations net request ;; ret (OrganizationsValue r)
  end.

(** The caller catches what a call throws and goes on: the session's
    trace pairs each call with how it ended. *)
Fixpoint run (calls : list Call) (w : World)
    : list (Call * (Thrown + Value)) * World :=
  match calls with
  | [] => ([], w)
  | c :: calls' =>
      let (r, w') := call c w in
      let (trace, w'') := run calls' w' in
      ((c, r) :: trace, w'')
  end.

(** An [authenticate()] that returned. *)
Definition authenticated (entry : Call * (Thrown + Value)) : bool :=
  match entry with
  | (Authenticate _, inr _) => true
  | _ => false
  end.

(** No [authenticate()] of the trace returned. *)
Definition neverAuthenticated (trace : list (Call * (Thrown + Value))) : bool :=
  forallb (fun entry => negb (authenticated entry)) trace.

(** The world of a client that was just constructed. *)
Definition fresh (c : IikoClient) : World := {| this := c; wire := [] |}.

(** The error of the local guard. *)
Definition notAuthenticated : Thrown :=
  IikoThrown
    (Errors.new_IikoAuthError
       (lit "Not authenticated. Call authenticate() first.") None).

(** The request [authenticate] sends for a client. *)
Definition accessTokenRequest (c : IikoClient) : Request :=
  mergeConfig (httpClient c) POST (lit "/api/1/access_token")
    (Some (AccessTokenBody (apiKey c))) ∅.

(** Rendering a natural number in decimal, through the Standard Library's
    digit lists. *)
Fixpoint codeUnits (d : Decimal.uint) : JSString :=
  match d with
  | Decimal.Nil => []
  | Decimal.D0 d => 0x30 :: codeUnits d
  | Decimal.D1 d => 0x31 :: codeUnits d
  | Decimal.D2 d => 0x32 :: codeUnits d
  | Decimal.D3 d => 0x33 :: codeUnits d
  | Decimal.D4 d => 0x34 :: codeUnits d
  | Decimal.D5 d => 0x35 :: codeUnits d
  | Decimal.D6 d => 0x36 :: codeUnits d
  | Decimal.D7 d => 0x37 :: codeUnits d
  | Decimal.D8 d => 0x38 :: codeUnits d
  | Decimal.D9 d => 0x39 :: codeUnits d
  end.

Definition decimal (n : N) : JSString := codeUnits (N.to_uint n).

(** A string made of white space only (the empty string is one). *)
Definition allWhiteSpace (s : JSString) : bool := forallb isWhiteSpace s.

(** A rejection that carries a response. *)
Definition rejectedWith (status : Z) (body : Types.ApiErrorResponse)
    (hs : gmap JSString JSString) (description : option JSString)
    : AxiosError Types.ApiErrorResponse :=
  {| message := description;
     response := Some {| status := status; data := body; headers := hs |} |}.

Definition bodyWithMessage (m : JSString) : Types.ApiErrorResponse :=
  {| Types.errorCode := None; Types.message := Some m; Types.details := None |}.

(** A 429 whose [retry-after] header is [h], when it has one. *)
Definition rateLimited (h : option JSString)
    : AxiosError Types.ApiErrorResponse :=
  rejectedWith 429 (bodyWithMessage (lit "Rate limit exceeded"))
    (match h with
     | Some v => {[ lit "retry-after" := v ]}
     | None => ∅
     end)
    (Some (lit "Request failed with status code 429")).

(** A network that cannot be reached, and a server that answers every
    request with status 200 and the body [t]. *)
Definition unreachable {T} : Transport T :=
  fun _ => inr {| message := Some (lit "Network Error"); response := None |}.

Definition serving {T} (t : T) : Transport T :=
  fun _ => inl {| status := 200; data := t; headers := ∅ |}.

(** A server that rejects with a status and a message in the body. *)
Definition refusing {T} (code : Z) (m : JSString) : Transport T :=
  fun _ => inr (rejectedWith code (bodyWithMessage m) ∅
                  (Some (lit "Request failed"))).

(** The request a resource method sends with the token [t]. *)
Definition bearerRequest (c : IikoClient) (method : Method)
    (endpoint : JSString) (body : option RequestBody) (t : JSString) : Request :=
  mergeConfig (httpClient c) method endpoint body
    {[ lit "Authorization" := lit "Bearer " ++ t ]}.

(** The world once [req] went out. *)
Definition sent (w : World) (req : Request) : World :=
  {| this := this w; wire := wire w ++ [req] |}.

(** A session in which authentication is tried twice and fails twice:
    the network is down, then the key is refused. *)
Definition failingSession : list Call :=
  [ IsAuthenticated;
    Authenticate unreachable;
    GetOrganizations unreachable None;
    Authenticate (refusing 401 (lit "Invalid API key"));
    GetAccessToken ].

(** The client [new IikoClient("key")]. *)
Definition sampleClient : IikoClient :=
  {| apiKey := lit "key";
     httpClient :=
       {| baseURL := DEFAULT_BASE_URL;
          timeout := DEFAULT_TIMEOUT;
          defaultHeaders := {[ lit "Content-Type" := lit "application/json" ]} |};
     accessToken := None |}.

(** The response of the test suite: two organizations. *)
Definition organization (i n : JSString) : Types.Organization :=
  {| Types.id := i; Types.name := n; Types.country := None;
     Types.restaurantAddress := None; Types.latitude := None;
     Types.longitude := None; Types.useUTCOffset := None;
     Types.utcOffset := None; Types.currencyIsoName := None;
     Types.currencyMinimumDenomination := None; Types.isDisabled := None |}.

Definition twoOrganizations : Types.GetOrganizationsResponse :=
  {| Types.correlationId := lit "test-correlation-id";
     Types.organizations :=
       [ organization (lit "org-1") (lit "Restaurant 1");
         organization (lit "org-2") (lit "Restaurant 2") ] |}.

(** *** Vocabulary of the further properties *)

(** The [name] each constructor of [Errors] gives its objects. *)
Definition className (c : Errors.ErrorClass) : JSString :=
  match c with
  | Errors.IikoApiError => lit "IikoApiError"
  | Errors.IikoAuthError => lit "IikoAuthError"
  | Errors.IikoRateLimitError => lit "IikoRateLimitError"
  end.

(** An error whose class, status code, error code and name agree the way
    [handleError] and the guard make them: the class can be read off the
    status code and back. *)
Definition classified (e : Errors.IikoError) : Prop :=
  Errors.name e = className (Errors.class e)
  /\ (Errors.class e = Errors.IikoAuthError <-> Errors.statusCode e = 401%Z)
  /\ (Errors.class e = Errors.IikoRateLimitError <-> Errors.statusCode e = 429%Z)
  /\ (Errors.class e = Errors.IikoAuthError ->
      Errors.errorCode e = Some (lit "AUTH_ERROR"))
  /\ (Errors.class e = Errors.IikoRateLimitError ->
      Errors.errorCode e = Some (lit "RATE_LIMIT"))
  /\ (Errors.retryAfter e <> None ->
      Errors.class e = Errors.IikoRateLimitError).

(** The [Authorization] header of a request. *)
Definition authorization (req : Request) : option JSString :=
  req_headers req !! lit "Authorization".



(** A request that follows the configuration of the client [c]. *)
Definition configured (c : IikoClient) (req : Request) : Prop :=
  req_method req = POST
  /\ req_baseURL req = baseURL (httpClient c)
  /\ req_timeout req = timeout (httpClient c)
  /\ req_headers req !! lit "Content-Type" = Some (lit "application/json").

(** Calls by kind. *)
Definition isAuthenticateCall (c : Call) : bool :=
  match c with Authenticate _ => true | _ => false end.

Definition isNetworkCall (c : Call) : bool :=
  match c with
  | Authenticate _ | GetOrganizations _ _ => true
  | IsAuthenticated | GetAccessToken => false
  end.

(** The token the last [authenticate()] of a trace returned, [initial]
    when none did. *)
Definition lastToken (trace : list (Call * (Thrown + Value)))
    (initial : option JSString) : option JSString :=
  fold_left
    (fun stored entry =>
       match entry with
       | (Authenticate _, inr (AuthValue r)) => Some (Types.token r)
       | _ => stored
       end)
    trace initial.

(** What is left of a string once one leading sign is taken off. *)
Definition afterSign (s : JSString) : JSString :=
  match s with
  | c :: s' => if (c =? 0x2B) || (c =? 0x2D) then s' else s
  | [] => []
  end.

Definition beginsWithDigit (s : JSString) : bool :=
  match s with
  | c :: _ => match digitValue c with Some _ => true | None => false end
  | [] => false
  end.

(** The sign a numeral may bear. *)
Inductive Sign : Type := Unsigned | Plus | Minus.

Definition signUnits (sg : Sign) : JSString :=
  match sg with
  | Unsigned => []
  | Plus => [0x2B]
  | Minus => [0x2D]
  end.

Definition isMinus (sg : Sign) : bool :=
  match sg with Minus => true | _ => false end.

(** A server that serves whatever the request, after which the caller
    asks for the organizations. *)
Definition signInThenList (t : JSString) : list Call :=
  [ Authenticate (serving t);
    GetOrganizations (serving twoOrganizations) None ].

(** A 503 that comes with a [retry-after] header. *)
Definition unavailable : AxiosError Types.ApiErrorResponse :=
  rejectedWith 503 (bodyWithMessage (lit "Service Unavailable"))
    {[ lit "retry-after" := lit "120" ]}
    (Some (lit "Request failed with status code 503")).

(** * Properties *)

(** ** Strings *)

Section TrimFacts.

Lemma trimStart_blank (s : JSString) :
  trimStart s = [] <-> allWhiteSpace s = true.
Proof.
  unfold allWhiteSpace.
  induction s as [|c s IH]; simpl; [tauto|].
  destruct (isWhiteSpace c); simpl; [exact IH|].
  split; discriminate.
Qed.

(** What [trimStart] leaves does not begin with white space. *)
Lemma trimStart_head (s : JSString) c t :
  trimStart s = c :: t -> isWhiteSpace c = false.
Proof.
  induction s as [|a s IH]; simpl; [discriminate|].
  destruct (isWhiteSpace a) eqn:Ha; [exact IH|].
  intros [= <- _]. exact Ha.
Qed.

Lemma allWhiteSpace_rev (s : JSString) :
  allWhiteSpace (rev s) = allWhiteSpace s.
Proof.
  unfold allWhiteSpace.
  induction s as [|c s IH]; simpl; [reflexivity|].
  rewrite forallb_app, IH. simpl.
  rewrite andb_true_r. apply andb_comm.
Qed.

Lemma trim_blank (s : JSString) :
  trim s = [] <-> allWhiteSpace s = true.
Proof.
  unfold trim, trimEnd. split.
  - intros H.
    assert (Hr : trimStart (rev (trimStart s)) = []).
    { destruct (trimStart (rev (trimStart s))); [reflexivity|].
      simpl in H. destruct (rev l); discriminate. }
    apply trimStart_blank in Hr. rewrite allWhiteSpace_rev in Hr.
    apply trimStart_blank.
    destruct (trimStart s) as [|c t] eqn:E; [reflexivity|].
    apply trimStart_head in E. simpl in Hr. rewrite E in Hr. discriminate.
  - intros H. apply trimStart_blank in H. rewrite H. reflexivity.
Qed.

Lemma isEmptyString_trim (s : JSString) :
  isEmptyString (trim s) = allWhiteSpace s.
Proof.
  destruct (allWhiteSpace s) eqn:E.
  - apply trim_blank in E. rewrite E. reflexivity.
  - destruct (trim s) eqn:T; [|reflexivity].
    apply trim_blank in T. congruence.
Qed.

End TrimFacts.

(** ** Construction *)

Lemma credential_guard (key : JSString) :
  negb (truthy key) || isEmptyString (trim key) = allWhiteSpace key.
Proof.
  rewrite isEmptyString_trim. destruct key; reflexivity.
Qed.

(** C7. Construction throws the validation error ("API key is required")
    exactly when the credential is empty or made of white space only,
    whatever its length; for every other credential it yields a client
    for which [isAuthenticated()] is false and [getAccessToken()] is
    null. *)
Theorem construction_validates_credential
    (key : JSString) (options : option Types.IikoClientOptions) :
  (new_IikoClient key options = inl (JSError (lit "API key is required"))
   <-> key = [] \/ allWhiteSpace key = true)
  /\ (~ (key = [] \/ allWhiteSpace key = true) ->
      exists c,
        new_IikoClient key options = inr c
        /\ apiKey c = key
        /\ isAuthenticated (fresh c) = (inr false, fresh c)
        /\ getAccessToken (fresh c) = (inr None, fresh c)).
Proof.
  unfold new_IikoClient. rewrite credential_guard.
  destruct (allWhiteSpace key) eqn:E.
  - split; [split; auto | intros H; exfalso; auto].
  - split.
    + split; [discriminate|].
      intros [-> | H]; [discriminate E | discriminate H].
    + intros _. eexists. split; [reflexivity|]. repeat split.
Qed.

Lemma construction_validates_credential_witness :
  exists c,
    new_IikoClient (lit "key") None = inr c
    /\ apiKey c = lit "key"
    /\ isAuthenticated (fresh c) = (inr false, fresh c)
    /\ getAccessToken (fresh c) = (inr None, fresh c).
Proof.
  apply (proj2 (construction_validates_credential (lit "key") None)).
  intros [H | H]; discriminate H.
Defined.

(** Three blanks are refused, and so is a tab followed by a no-break
    space; a key is accepted with blanks around it. *)
Example construction_examples :
  new_IikoClient (lit "   ") None = inl (JSError (lit "API key is required"))
  /\ new_IikoClient [0x09; 0xA0] None = inl (JSError (lit "API key is required"))
  /\ (exists c, new_IikoClient (lit " key ") None = inr c
                /\ baseURL (httpClient c) = DEFAULT_BASE_URL
                /\ timeout (httpClient c) = 30000%Z).
Proof.
  repeat split. eexists. repeat split.
Qed.

(** ** Reading decimal numerals *)

Section Numerals.

Import Decimal.

Lemma readDigits_acc (d : uint) (acc : positive) :
  readDigits (codeUnits d) (N.pos acc) true
  = Some (N.pos (Pos.of_uint_acc d acc)).
Proof.
  revert acc.
  induction d; intros acc; simpl codeUnits;
    [reflexivity | ..];
    cbn [readDigits Pos.of_uint_acc];
    match goal with
    | |- context [digitValue ?c] =>
        let v := eval vm_compute in (digitValue c) in
        change (digitValue c) with v; cbv iota beta
    end;
    rewrite <- IHd; f_equal; lia.
Qed.

Lemma readDigits_seen (d : uint) :
  readDigits (codeUnits d) 0 true = Some (N.of_uint d).
Proof.
  induction d; simpl codeUnits;
    [reflexivity | ..];
    cbn [readDigits];
    match goal with
    | |- context [digitValue ?c] =>
        let v := eval vm_compute in (digitValue c) in
        change (digitValue c) with v; cbv iota beta
    end;
    [exact IHd | ..];
    match goal with
    | |- readDigits _ ?a _ = _ =>
        let v := eval vm_compute in a in change a with v
    end;
    apply readDigits_acc.
Qed.

Lemma readDigits_numeral (d : uint) :
  d <> Nil -> readDigits (codeUnits d) 0 false = Some (N.of_uint d).
Proof.
  intros Hd. pose proof (readDigits_seen d) as H.
  destruct d; [congruence | ..]; exact H.
Qed.

End Numerals.

(** ** [parseInt] with radix 10 *)

Section ParseInt.

(** A string that begins with neither white space nor a sign is read as
    digits from its first code unit. *)
Lemma parseInt10_unsigned (c : N) (t : JSString) :
  isWhiteSpace c = false -> c <> 0x2B -> c <> 0x2D ->
  parseInt10 (c :: t)
  = match readDigits (c :: t) 0 false with
    | None => NaN
    | Some m => if m =? 0 then Finite false 0 else roundToDouble false m
    end.
Proof.
  intros Hw Hp Hm. unfold parseInt10. cbn [trimStart]. rewrite Hw.
  apply N.eqb_neq in Hp, Hm. rewrite Hp, Hm. reflexivity.
Qed.

Lemma parseInt10_no_number (c : N) (t : JSString) :
  isWhiteSpace c = false -> c <> 0x2B -> c <> 0x2D ->
  digitValue c = None ->
  parseInt10 (c :: t) = NaN.
Proof.
  intros Hw Hp Hm Hd. rewrite parseInt10_unsigned by assumption.
  cbn [readDigits]. rewrite Hd. reflexivity.
Qed.

Lemma parseInt10_codeUnits (d : Decimal.uint) :
  d <> Decimal.Nil ->
  parseInt10 (codeUnits d)
  = if N.of_uint d =? 0 then Finite false 0
    else roundToDouble false (N.of_uint d).
Proof.
  intros Hd. pose proof (readDigits_numeral d Hd) as Hr.
  destruct d; [congruence | ..];
    simpl codeUnits in *; rewrite parseInt10_unsigned;
    first [rewrite Hr; reflexivity | reflexivity | discriminate].
Qed.

Lemma roundToDouble_exact (negative : bool) (n : N) :
  n < 2 ^ 53 -> roundToDouble negative n = Finite negative n.
Proof.
  intros H. unfold roundToDouble. apply N.ltb_lt in H. rewrite H. reflexivity.
Qed.

(** The decimal numeral of [n] is read back as the double nearest to
    [n], which is [n] itself below 2^53. *)
Lemma parseInt10_decimal (n : N) :
  parseInt10 (decimal n) = roundToDouble false n.
Proof.
  unfold decimal. destruct n as [|p]; [reflexivity|].
  rewrite parseInt10_codeUnits.
  - unfold N.to_uint, N.of_uint. rewrite DecimalPos.Unsigned.of_to. reflexivity.
  - apply DecimalPos.Unsigned.to_uint_nonnil.
Qed.

End ParseInt.

(** ** Error classification *)

(** C2. A rejection is turned into exactly one error, whose class follows
    the precedence: status 401 gives [IikoAuthError] (status code 401,
    error code "AUTH_ERROR"); otherwise status 429 gives
    [IikoRateLimitError] (429, "RATE_LIMIT"); otherwise [IikoApiError]
    with the response's status, the body's error code and the body; a
    rejection without a response gives [IikoApiError] with status 500. *)
Theorem classification_precedence
    (error : AxiosError Types.ApiErrorResponse) :
  let e := handleError error in
  match response error with
  | None =>
      Errors.class e = Errors.IikoApiError
      /\ Errors.statusCode e = 500%Z
      /\ Errors.errorCode e = None
      /\ Errors.response e = None
  | Some r =>
      Errors.response e = Some (data r)
      /\ if (status r =? 401)%Z then
           Errors.class e = Errors.IikoAuthError
           /\ Errors.statusCode e = 401%Z
           /\ Errors.errorCode e = Some (lit "AUTH_ERROR")
         else if (status r =? 429)%Z then
           Errors.class e = Errors.IikoRateLimitError
           /\ Errors.statusCode e = 429%Z
           /\ Errors.errorCode e = Some (lit "RATE_LIMIT")
         else
           Errors.class e = Errors.IikoApiError
           /\ Errors.statusCode e = status r
           /\ Errors.errorCode e = Types.errorCode (data r)
  end.
Proof.
  destruct error as [description [r|]]; cbv zeta; unfold handleError; simpl.
  - destruct (status r =? 401)%Z; [repeat split|].
    destruct (status r =? 429)%Z; repeat split.
  - repeat split.
Qed.

(** Whatever the class, the error is an instance of [IikoApiError], and
    of no other subclass than its own. *)
Lemma handleError_instanceOf (error : AxiosError Types.ApiErrorResponse) :
  Errors.instanceOf (Errors.class (handleError error)) Errors.IikoApiError = true
  /\ (Errors.instanceOf (Errors.class (handleError error)) Errors.IikoAuthError
      && Errors.instanceOf (Errors.class (handleError error)) Errors.IikoRateLimitError
      = false).
Proof.
  destruct error as [description [r|]]; unfold handleError; simpl.
  - destruct (status r =? 401)%Z; [split; reflexivity|].
    destruct (status r =? 429)%Z; split; reflexivity.
  - split; reflexivity.
Qed.

(** C6. The message of the error is the [message] field of the response
    body when the body has one; otherwise the transport's own description
    of the failure; otherwise the text "An unknown error occurred". *)
Theorem message_precedence (error : AxiosError Types.ApiErrorResponse) :
  Errors.message (handleError error)
  = match response error ≫= (fun r => Types.message (data r)) with
    | Some fromBody => fromBody
    | None =>
        match message error with
        | Some description => description
        | None => lit "An unknown error occurred"
        end
    end.
Proof.
  destruct error as [description [r|]]; unfold handleError; simpl.
  - destruct (status r =? 401)%Z; [reflexivity|].
    destruct (status r =? 429)%Z; reflexivity.
  - reflexivity.
Qed.

(** A 500 with a message in its body, a dropped connection, and a
    rejection that says nothing at all. *)
Example message_examples :
  Errors.message
    (handleError (rejectedWith 500 (bodyWithMessage (lit "Internal server error"))
                    ∅ (Some (lit "Request failed with status code 500"))))
  = lit "Internal server error"
  /\ Errors.message
       (handleError {| message := Some (lit "Network Error"); response := None |})
     = lit "Network Error"
  /\ Errors.message (handleError {| message := None; response := None |})
     = lit "An unknown error occurred".
Proof. repeat split. Qed.

(** ** The retry-after of a rate-limit error *)

Lemma retryAfter_rejected
    (body : Types.ApiErrorResponse) (hs : gmap JSString JSString)
    (description : option JSString) :
  Errors.retryAfter (handleError (rejectedWith 429 body hs description))
  = match hs !! lit "retry-after" with
    | Some h => if isEmptyString h then None else Some (parseInt10 h)
    | None => None
    end.
Proof.
  unfold handleError, rejectedWith. simpl.
  destruct (hs !! lit "retry-after") as [[|c h]|]; reflexivity.
Qed.

(** C5, as the code has it. A 429 gives an [IikoRateLimitError]. Its
    [retryAfter] is absent when the response has no [retry-after] header
    or an empty one; for any other header it is [parseInt(header, 10)]:
    for the decimal numeral of [n] the double nearest to [n], which is
    [n] itself below 2^53 ("60" gives 60), and NaN, not absent, when the
    header begins with something that is neither white space, a sign nor
    a digit. *)
Theorem retry_after_of_rate_limit
    (body : Types.ApiErrorResponse) (hs : gmap JSString JSString)
    (description : option JSString) :
  let e := handleError (rejectedWith 429 body hs description) in
  Errors.class e = Errors.IikoRateLimitError
  /\ match hs !! lit "retry-after" with
     | None => Errors.retryAfter e = None
     | Some h =>
         Errors.retryAfter e
         = (if isEmptyString h then None else Some (parseInt10 h))
         /\ (forall n, h = decimal n ->
               Errors.retryAfter e = Some (roundToDouble false n)
               /\ (n < 2 ^ 53 -> Errors.retryAfter e = Some (Finite false n)))
         /\ (forall c t, h = c :: t ->
               isWhiteSpace c = false -> c <> 0x2B -> c <> 0x2D ->
               digitValue c = None ->
               Errors.retryAfter e = Some NaN)
     end.
Proof.
  cbv zeta. split; [reflexivity|].
  rewrite retryAfter_rejected.
  destruct (hs !! lit "retry-after") as [h|]; [|reflexivity].
  split; [reflexivity|]. split.
  - intros n ->.
    assert (Hparsed : (if isEmptyString (decimal n) then None
                       else Some (parseInt10 (decimal n)))
                      = Some (roundToDouble false n)).
    { rewrite parseInt10_decimal.
      destruct (decimal n) eqn:E; [|reflexivity].
      exfalso. unfold decimal in E. destruct n as [|p]; [discriminate E|].
      apply (DecimalPos.Unsigned.to_uint_nonnil p).
      simpl in E. destruct (Pos.to_uint p); [reflexivity | discriminate E ..]. }
    rewrite Hparsed. split; [reflexivity|].
    intros Hn. rewrite roundToDouble_exact by exact Hn. reflexivity.
  - intros c t -> Hw Hp Hm Hd. simpl.
    rewrite parseInt10_no_number by assumption. reflexivity.
Qed.

Lemma retry_after_of_rate_limit_witness :
  Errors.retryAfter (handleError (rateLimited (Some (lit "60"))))
  = Some (Finite false 60)
  /\ Errors.retryAfter (handleError (rateLimited (Some (lit "soon"))))
     = Some NaN.
Proof.
  split.
  - refine (proj2 (proj1 (proj2 (proj2
      (retry_after_of_rate_limit
         (bodyWithMessage (lit "Rate limit exceeded"))
         {[ lit "retry-after" := lit "60" ]}
         (Some (lit "Request failed with status code 429"))))) 60 _) _).
    + reflexivity.
    + reflexivity.
  - refine (proj2 (proj2 (proj2
      (retry_after_of_rate_limit
         (bodyWithMessage (lit "Rate limit exceeded"))
         {[ lit "retry-after" := lit "soon" ]}
         (Some (lit "Request failed with status code 429"))))) 0x73 (lit "oon") _ _ _ _ _);
      first [reflexivity | discriminate].
Defined.

(** The claim as the specification words it fails on a header that is
    not a number: "abc" cannot be parsed, and [retryAfter] is NaN rather
    than absent. *)
Lemma retry_after_unparseable_is_not_absent :
  parseInt10 (lit "abc") = NaN
  /\ Errors.retryAfter (handleError (rateLimited (Some (lit "abc")))) = Some NaN
  /\ Errors.retryAfter (handleError (rateLimited (Some (lit "abc")))) <> None.
Proof.
  split; [reflexivity|]. split; [reflexivity | discriminate].
Qed.

(** The cases of the test suite: "60" and no header. *)
Example retry_after_examples :
  Errors.retryAfter (handleError (rateLimited (Some (lit "60"))))
  = Some (Finite false 60)
  /\ Errors.retryAfter (handleError (rateLimited None)) = None
  /\ Errors.retryAfter (handleError (rateLimited (Some (lit "")))) = None
  /\ Errors.retryAfter (handleError (rateLimited (Some (lit "60, 120"))))
     = Some (Finite false 60).
Proof. repeat split. Qed.

(** ** The methods, step by step *)

Section Methods.

Context {T : Type}.
Implicit Types (net : Transport T) (w : World).

(** A request either returns the response or throws what [handleError]
    made of the rejection; either way it went on the wire. *)
Lemma httpClient_request_outcome net method url body hs w :
  httpClient_request net method url body hs w
  = (match net (mergeConfig (httpClient (this w)) method url body hs) with
     | inl r => inr r
     | inr error => inl (IikoThrown (handleError error))
     end,
     sent w (mergeConfig (httpClient (this w)) method url body hs)).
Proof.
  unfold httpClient_request, bind, read, send, sent. simpl.
  destruct (net _); reflexivity.
Qed.

Lemma ensureAuthenticated_outcome w :
  ensureAuthenticated w
  = (if truthyOpt (accessToken (this w)) then inr tt else inl notAuthenticated, w).
Proof.
  unfold ensureAuthenticated, bind, read. simpl.
  destruct (truthyOpt _); reflexivity.
Qed.

(** The guard of [post]: nothing is sent without a truthy token. *)
Lemma post_guarded net endpoint body w :
  truthyOpt (accessToken (this w)) = false ->
  post net endpoint body w = (inl notAuthenticated, w).
Proof.
  intros H. unfold post. unfold bind at 1.
  rewrite ensureAuthenticated_outcome, H. reflexivity.
Qed.

Lemma get_guarded net endpoint w :
  truthyOpt (accessToken (this w)) = false ->
  get net endpoint w = (inl notAuthenticated, w).
Proof.
  intros H. unfold get. unfold bind at 1.
  rewrite ensureAuthenticated_outcome, H. reflexivity.
Qed.

(** With a truthy token [post] sends one request, bearing the token. *)
Lemma post_outcome net endpoint body w t :
  accessToken (this w) = Some t -> truthy t = true ->
  post net endpoint body w
  = (match net (bearerRequest (this w) POST endpoint body t) with
     | inl r => inr (data r)
     | inr error => inl (IikoThrown (handleError error))
     end,
     sent w (bearerRequest (this w) POST endpoint body t)).
Proof.
  intros Ht Htruthy. unfold post. unfold bind at 1.
  rewrite ensureAuthenticated_outcome, Ht. simpl. rewrite Htruthy.
  unfold bind at 1. unfold getAuthHeaders, bind, read, ret. simpl.
  rewrite Ht. simpl.
  rewrite httpClient_request_outcome. unfold bearerRequest.
  destruct (net _); reflexivity.
Qed.

Lemma get_outcome net endpoint w t :
  accessToken (this w) = Some t -> truthy t = true ->
  get net endpoint w
  = (match net (bearerRequest (this w) GET endpoint None t) with
     | inl r => inr (data r)
     | inr error => inl (IikoThrown (handleError error))
     end,
     sent w (bearerRequest (this w) GET endpoint None t)).
Proof.
  intros Ht Htruthy. unfold get. unfold bind at 1.
  rewrite ensureAuthenticated_outcome, Ht. simpl. rewrite Htruthy.
  unfold bind at 1. unfold getAuthHeaders, bind, read, ret. simpl.
  rewrite Ht. simpl.
  rewrite httpClient_request_outcome. unfold bearerRequest.
  destruct (net _); reflexivity.
Qed.

(** Guarded or not, [post] and [get] leave the client object alone. *)
Lemma post_frame net endpoint body w :
  this (snd (post net endpoint body w)) = this w.
Proof.
  destruct (accessToken (this w)) as [t|] eqn:Ht.
  - destruct (truthy t) eqn:Htruthy.
    + rewrite (post_outcome _ _ _ _ t) by assumption. reflexivity.
    + rewrite post_guarded; [reflexivity|]. rewrite Ht. exact Htruthy.
  - rewrite post_guarded; [reflexivity|]. rewrite Ht. reflexivity.
Qed.

Lemma get_frame net endpoint w :
  this (snd (get net endpoint w)) = this w.
Proof.
  destruct (accessToken (this w)) as [t|] eqn:Ht.
  - destruct (truthy t) eqn:Htruthy.
    + rewrite (get_outcome _ _ _ t) by assumption. reflexivity.
    + rewrite get_guarded; [reflexivity|]. rewrite Ht. exact Htruthy.
  - rewrite get_guarded; [reflexivity|]. rewrite Ht. reflexivity.
Qed.

End Methods.

(** [authenticate] sends the credential; it stores and returns the token
    of a response, and throws on a rejection without touching [this]. *)
Lemma authenticate_outcome (net : Transport JSString) (w : World) :
  authenticate net w
  = match net (accessTokenRequest (this w)) with
    | inl r =>
        (inr {| Types.token := data r |},
         {| this := withToken (this w) (Some (data r));
            wire := wire w ++ [accessTokenRequest (this w)] |})
    | inr error =>
        (inl (IikoThrown (handleError error)),
         sent w (accessTokenRequest (this w)))
    end.
Proof.
  unfold authenticate. unfold bind at 1. unfold read at 1. cbv beta iota.
  unfold bind at 1. rewrite httpClient_request_outcome.
  fold (accessTokenRequest (this w)).
  destruct (net _); reflexivity.
Qed.

(** ** Sessions *)

Section Sessions.

Implicit Types (w : World) (c : Call).

Lemma isAuthenticated_outcome w :
  isAuthenticated w
  = (inr (match accessToken (this w) with Some _ => true | None => false end), w).
Proof. reflexivity. Qed.

Lemma getAccessToken_outcome w :
  getAccessToken w = (inr (accessToken (this w)), w).
Proof. reflexivity. Qed.

Lemma getOrganizations_frame net request w :
  this (snd (getOrganizations net request w)) = this w.
Proof. unfold getOrganizations. apply post_frame. Qed.

(** Mapping the returned value does not change the world. *)
Lemma bind_ret_world {A B} (m : M A) (f : A -> B) w :
  snd ((x <- m ;; ret (f x)) w) = snd (m w).
Proof. unfold bind, ret. destruct (m w) as [[t|a] w']; reflexivity. Qed.

(** A call that is not an [authenticate()] that returned leaves the
    client object as it was. *)
Lemma call_frame c w :
  authenticated (c, fst (call c w)) = false ->
  this (snd (call c w)) = this w.
Proof.
  destruct c as [net| | |net request]; simpl; intros H.
  - rewrite bind_ret_world. rewrite authenticate_outcome.
    unfold bind, ret in H. rewrite authenticate_outcome in H.
    destruct (net _); [discriminate H | reflexivity].
  - reflexivity.
  - reflexivity.
  - rewrite bind_ret_world. apply getOrganizations_frame.
Qed.

Lemma run_cons c calls w :
  run (c :: calls) w
  = ((c, fst (call c w)) :: fst (run calls (snd (call c w))),
     snd (run calls (snd (call c w)))).
Proof.
  simpl. destruct (call c w) as [r w']. simpl.
  destruct (run calls w'); reflexivity.
Qed.

(** While no [authenticate()] returns, the client object does not
    change. *)
Lemma run_frame calls w :
  neverAuthenticated (fst (run calls w)) = true ->
  this (snd (run calls w)) = this w.
Proof.
  revert w. induction calls as [|c calls IH]; intros w; [reflexivity|].
  rewrite run_cons. simpl. intros H.
  apply andb_prop in H as [Hc Hrest].
  rewrite IH by exact Hrest.
  apply call_frame. apply negb_true_iff in Hc. exact Hc.
Qed.

Lemma new_IikoClient_token key options client :
  new_IikoClient key options = inr client -> accessToken client = None.
Proof.
  unfold new_IikoClient. destruct (_ || _); [discriminate|].
  intros [= <-]. reflexivity.
Qed.

End Sessions.

(** ** The guard of the resource calls *)

(** C1. On a client that was constructed and on which no
    [authenticate()] has returned since, whatever else was called, every
    resource call ([getOrganizations], and [post] and [get] under it)
    throws the [IikoAuthError] of the local guard, "Not authenticated.
    Call authenticate() first.", and the world is as before: no request
    went out. *)
Theorem resource_calls_require_authentication
    (key : JSString) (options : option Types.IikoClientOptions)
    (client : IikoClient) (calls : list Call) :
  new_IikoClient key options = inr client ->
  neverAuthenticated (fst (run calls (fresh client))) = true ->
  let w := snd (run calls (fresh client)) in
  (forall net request,
      getOrganizations net request w = (inl notAuthenticated, w))
  /\ (forall T (net : Transport T) endpoint body,
        post net endpoint body w = (inl notAuthenticated, w))
  /\ (forall T (net : Transport T) endpoint,
        get net endpoint w = (inl notAuthenticated, w)).
Proof.
  intros Hnew Hnever w.
  assert (Hguard : truthyOpt (accessToken (this w)) = false).
  { subst w. rewrite run_frame by exact Hnever. simpl.
    rewrite (new_IikoClient_token _ _ _ Hnew). reflexivity. }
  repeat split; intros.
  - unfold getOrganizations. apply post_guarded, Hguard.
  - apply post_guarded, Hguard.
  - apply get_guarded, Hguard.
Qed.

(** What the guard throws, field by field. *)
Example notAuthenticated_fields :
  notAuthenticated
  = IikoThrown
      {| Errors.class := Errors.IikoAuthError;
         Errors.name := lit "IikoAuthError";
         Errors.message := lit "Not authenticated. Call authenticate() first.";
         Errors.statusCode := 401%Z;
         Errors.errorCode := Some (lit "AUTH_ERROR");
         Errors.response := None;
         Errors.retryAfter := None |}.
Proof. reflexivity. Qed.

Lemma resource_calls_require_authentication_witness :
  let w := snd (run failingSession (fresh sampleClient)) in
  (forall net request,
      getOrganizations net request w = (inl notAuthenticated, w))
  /\ (forall T (net : Transport T) endpoint body,
        post net endpoint body w = (inl notAuthenticated, w))
  /\ (forall T (net : Transport T) endpoint,
        get net endpoint w = (inl notAuthenticated, w)).
Proof.
  apply (resource_calls_require_authentication (lit "key") None
           sampleClient failingSession).
  - reflexivity.
  - vm_compute. reflexivity.
Defined.

(** ** Authentication *)

(** C3. When the server answers [authenticate()] with a non-empty token
    [t], the call returns the record holding [t], after it
    [isAuthenticated()] is true and [getAccessToken()] is [t], and one
    request went out. A later [authenticate()] answered with [t'] goes
    to the network again and leaves [t'] as the stored token. *)
Theorem authenticate_stores_token
    (net : Transport JSString) (w : World)
    (r : AxiosResponse JSString) (t : JSString) :
  t <> [] ->
  net (accessTokenRequest (this w)) = inl r ->
  data r = t ->
  let w1 := snd (authenticate net w) in
  fst (authenticate net w) = inr {| Types.token := t |}
  /\ isAuthenticated w1 = (inr true, w1)
  /\ getAccessToken w1 = (inr (Some t), w1)
  /\ wire w1 = wire w ++ [accessTokenRequest (this w)]
  /\ forall (net' : Transport JSString) (r' : AxiosResponse JSString) t',
       t' <> [] ->
       net' (accessTokenRequest (this w1)) = inl r' ->
       data r' = t' ->
       let w2 := snd (authenticate net' w1) in
       fst (authenticate net' w1) = inr {| Types.token := t' |}
       /\ isAuthenticated w2 = (inr true, w2)
       /\ getAccessToken w2 = (inr (Some t'), w2)
       /\ wire w2 = wire w1 ++ [accessTokenRequest (this w1)].
Proof.
  intros _ Hnet Hdata w1. subst w1.
  rewrite authenticate_outcome, Hnet, Hdata. simpl.
  do 4 (split; [reflexivity|]).
  intros net' r' t' _ Hnet' Hdata'.
  rewrite authenticate_outcome. simpl in Hnet' |- *.
  rewrite Hnet', Hdata'. repeat split.
Qed.

Lemma authenticate_stores_token_witness :
  let w1 := snd (authenticate (serving (lit "test-access-token-67890"))
                   (fresh sampleClient)) in
  fst (authenticate (serving (lit "test-access-token-67890")) (fresh sampleClient))
  = inr {| Types.token := lit "test-access-token-67890" |}
  /\ isAuthenticated w1 = (inr true, w1)
  /\ getAccessToken w1 = (inr (Some (lit "test-access-token-67890")), w1).
Proof.
  pose proof (authenticate_stores_token
                (serving (lit "test-access-token-67890")) (fresh sampleClient)
                {| status := 200; data := lit "test-access-token-67890";
                   headers := ∅ |}
                (lit "test-access-token-67890")) as H.
  cbv zeta in H.
  destruct H as (H1 & H2 & H3 & _); [discriminate | reflexivity | reflexivity |].
  cbv zeta. auto.
Defined.

(** C4. When [authenticate()] throws, the client object is the one from
    before the call: a client without a token has none, and a stored
    token is still there, so the two reads answer as before. What was
    thrown is the error made from the transport's rejection. *)
Theorem failed_authenticate_keeps_session
    (net : Transport JSString) (w : World) (thrown : Thrown) :
  fst (authenticate net w) = inl thrown ->
  let w1 := snd (authenticate net w) in
  this w1 = this w
  /\ fst (isAuthenticated w1) = fst (isAuthenticated w)
  /\ fst (getAccessToken w1) = fst (getAccessToken w)
  /\ exists error,
       net (accessTokenRequest (this w)) = inr error
       /\ thrown = IikoThrown (handleError error).
Proof.
  intros H w1. subst w1. rewrite authenticate_outcome in H |- *.
  destruct (net _) as [r|error]; [discriminate H|].
  simpl in H. injection H as <-.
  repeat split. exists error. split; reflexivity.
Qed.

Lemma failed_authenticate_keeps_session_witness :
  let w := {| this := withToken sampleClient (Some (lit "T")); wire := [] |} in
  let w1 := snd (authenticate (refusing 401 (lit "Invalid API key")) w) in
  this w1 = this w
  /\ fst (getAccessToken w1) = inr (Some (lit "T")).
Proof.
  cbv zeta.
  destruct (failed_authenticate_keeps_session
              (refusing 401 (lit "Invalid API key"))
              {| this := withToken sampleClient (Some (lit "T")); wire := [] |}
              (IikoThrown
                 (Errors.new_IikoAuthError (lit "Invalid API key")
                    (Some (bodyWithMessage (lit "Invalid API key"))))))
    as (H1 & _ & H3 & _); [reflexivity|].
  split; [exact H1 | exact H3].
Defined.

(** A 401 on the first [authenticate()]: an [IikoAuthError] with status
    401 and code "AUTH_ERROR", and the client stays unauthenticated. *)
Example authenticate_401 :
  let out := authenticate (refusing 401 (lit "Invalid API key")) (fresh sampleClient) in
  fst out = inl (IikoThrown
                   (Errors.new_IikoAuthError (lit "Invalid API key")
                      (Some (bodyWithMessage (lit "Invalid API key")))))
  /\ isAuthenticated (snd out) = (inr false, snd out)
  /\ getAccessToken (snd out) = (inr None, snd out).
Proof. repeat split. Qed.

(** ** Organizations *)

(** C8, as the code has it. On a client whose stored token is a
    non-empty string [t], [getOrganizations] sends exactly one request:
    a POST to /api/1/organizations, with the client's base URL and
    timeout, whose body is the request record it was given, the empty
    record when it was given none, and whose [Authorization] header is
    "Bearer " followed by [t]; when the server answers, the call
    returns the body of the answer as it is, and when the request is
    rejected it throws the error made of the rejection. *)
Theorem getOrganizations_forwards
    (net : Transport Types.GetOrganizationsResponse) (w : World)
    (t : JSString) (request : option Types.GetOrganizationsRequest) :
  accessToken (this w) = Some t ->
  t <> [] ->
  exists req,
    snd (getOrganizations net request w)
    = {| this := this w; wire := wire w ++ [req] |}
    /\ req_method req = POST
    /\ req_url req = lit "/api/1/organizations"
    /\ req_baseURL req = baseURL (httpClient (this w))
    /\ req_timeout req = timeout (httpClient (this w))
    /\ req_data req
       = Some (OrganizationsBody
                 (match request with
                  | Some given => given
                  | None => Types.emptyRequest
                  end))
    /\ req_headers req !! lit "Authorization" = Some (lit "Bearer " ++ t)
    /\ fst (getOrganizations net request w)
       = match net req with
         | inl r => inr (data r)
         | inr error => inl (IikoThrown (handleError error))
         end.
Proof.
  intros Ht Hne.
  assert (Htruthy : truthy t = true) by (destruct t; [congruence | reflexivity]).
  unfold getOrganizations.
  rewrite (post_outcome net _ _ w t Ht Htruthy).
  eexists. split; [reflexivity|].
  do 4 (split; [reflexivity|]).
  split; [destruct request; reflexivity|].
  split; [|reflexivity].
  unfold bearerRequest, mergeConfig. simpl.
  apply lookup_union_Some_l. apply lookup_singleton_eq.
Qed.

Lemma getOrganizations_forwards_witness :
  let w := {| this := withToken sampleClient (Some (lit "T")); wire := [] |} in
  exists req,
    snd (getOrganizations (serving twoOrganizations) None w)
    = {| this := this w; wire := [req] |}
    /\ req_method req = POST
    /\ req_url req = lit "/api/1/organizations"
    /\ req_data req = Some (OrganizationsBody Types.emptyRequest)
    /\ fst (getOrganizations (serving twoOrganizations) None w)
       = inr twoOrganizations.
Proof.
  cbv zeta.
  destruct (getOrganizations_forwards (serving twoOrganizations)
              {| this := withToken sampleClient (Some (lit "T")); wire := [] |}
              (lit "T") None)
    as (req & Hsent & Hmethod & Hurl & _ & _ & Hbody & _ & Hanswer);
    [reflexivity | discriminate |].
  exists req. split; [exact Hsent|]. split; [exact Hmethod|].
  split; [exact Hurl|]. split; [exact Hbody | exact Hanswer].
Defined.

(** The claim as the specification words it, for every authenticated
    client, fails on the client that holds the empty string:
    [isAuthenticated()] is true, and [getOrganizations] sends nothing
    and throws the guard's error. *)
Lemma getOrganizations_on_empty_token_sends_nothing :
  isAuthenticated {| this := withToken sampleClient (Some []); wire := [] |}
  = (inr true, {| this := withToken sampleClient (Some []); wire := [] |})
  /\ getOrganizations (serving twoOrganizations) None
       {| this := withToken sampleClient (Some []); wire := [] |}
     = (inl notAuthenticated,
        {| this := withToken sampleClient (Some []); wire := [] |})
  /\ inl notAuthenticated
     <> (inr twoOrganizations : Thrown + Types.GetOrganizationsResponse).
Proof.
  split; [reflexivity|]. split; [reflexivity | discriminate].
Qed.

(** ** What changes the session *)

(** C9. [isAuthenticated()] and [getAccessToken()] leave the world as it
    is; a resource call, whether it returns or throws, leaves the client
    object (key, configuration and token) as it is; so does every call of
    a session but an [authenticate()] that returns. *)
Theorem only_authenticate_changes_session (w : World) :
  snd (isAuthenticated w) = w
  /\ snd (getAccessToken w) = w
  /\ (forall net request, this (snd (getOrganizations net request w)) = this w)
  /\ (forall T (net : Transport T) endpoint body,
        this (snd (post net endpoint body w)) = this w)
  /\ (forall T (net : Transport T) endpoint,
        this (snd (get net endpoint w)) = this w)
  /\ (forall c, authenticated (c, fst (call c w)) = false ->
        this (snd (call c w)) = this w).
Proof.
  split; [reflexivity|]. split; [reflexivity|].
  split; [intros; apply getOrganizations_frame|].
  split; [intros; apply post_frame|].
  split; [intros; apply get_frame|].
  intros c. apply call_frame.
Qed.

Lemma only_authenticate_changes_session_witness :
  let w := {| this := withToken sampleClient (Some (lit "T")); wire := [] |} in
  this (snd (call (GetOrganizations (serving twoOrganizations) None) w)) = this w
  /\ this (snd (call (Authenticate unreachable) w)) = this w.
Proof.
  cbv zeta.
  pose proof (only_authenticate_changes_session
                {| this := withToken sampleClient (Some (lit "T")); wire := [] |})
    as (_ & _ & _ & _ & _ & H).
  split; apply H; reflexivity.
Defined.

(** ** The empty token *)

(** C10. When the server answers [authenticate()] with the empty string,
    the stored token is "": [isAuthenticated()] is true, and yet every
    resource call throws the guard's "Not authenticated" error without
    sending anything. *)
Theorem empty_token_guard_mismatch
    (net : Transport JSString) (w : World) (r : AxiosResponse JSString) :
  net (accessTokenRequest (this w)) = inl r ->
  data r = [] ->
  let w1 := snd (authenticate net w) in
  getAccessToken w1 = (inr (Some []), w1)
  /\ isAuthenticated w1 = (inr true, w1)
  /\ (forall netO request,
        getOrganizations netO request w1 = (inl notAuthenticated, w1))
  /\ (forall T (netT : Transport T) endpoint body,
        post netT endpoint body w1 = (inl notAuthenticated, w1))
  /\ (forall T (netT : Transport T) endpoint,
        get netT endpoint w1 = (inl notAuthenticated, w1)).
Proof.
  intros Hnet Hdata w1. subst w1.
  rewrite authenticate_outcome, Hnet, Hdata. simpl.
  do 2 (split; [reflexivity|]).
  split; [|split]; intros.
  - unfold getOrganizations. apply post_guarded. reflexivity.
  - apply post_guarded. reflexivity.
  - apply get_guarded. reflexivity.
Qed.

Lemma empty_token_guard_mismatch_witness :
  let w1 := snd (authenticate (serving []) (fresh sampleClient)) in
  isAuthenticated w1 = (inr true, w1)
  /\ getOrganizations (serving twoOrganizations) None w1
     = (inl notAuthenticated, w1).
Proof.
  cbv zeta.
  destruct (empty_token_guard_mismatch (serving []) (fresh sampleClient)
              {| status := 200; data := []; headers := ∅ |})
    as (_ & Hauth & Horgs & _); [reflexivity | reflexivity |].
  split; [exact Hauth | apply Horgs].
Defined.


(** * Further properties of the client *)

(** ** What the methods throw *)

Lemma handleError_classified (error : AxiosError Types.ApiErrorResponse) :
  classified (handleError error).
Proof.
  unfold classified, handleError.
  destruct error as [description [r|]]; simpl.
  - destruct (status r =? 401)%Z eqn:E401.
    { apply Z.eqb_eq in E401. simpl.
      repeat split; intros; first [reflexivity | discriminate | congruence]. }
    destruct (status r =? 429)%Z eqn:E429.
    { apply Z.eqb_eq in E429. simpl.
      repeat split; intros; first [reflexivity | discriminate | congruence]. }
    apply Z.eqb_neq in E401, E429. simpl.
    repeat split; intros; first [reflexivity | discriminate | congruence].
  - repeat split; intros; first [reflexivity | discriminate | congruence].
Qed.

Lemma notAuthenticated_classified :
  exists e, notAuthenticated = IikoThrown e /\ classified e.
Proof.
  eexists. split; [reflexivity|]. unfold classified. simpl.
  repeat split; intros; first [reflexivity | discriminate | congruence].
Qed.

(** What a request through the http client throws comes from
    [handleError]. *)
Lemma httpClient_request_throws {T} (net : Transport T) method url body hs w t :
  fst (httpClient_request net method url body hs w) = inl t ->
  exists error, t = IikoThrown (handleError error).
Proof.
  rewrite httpClient_request_outcome. simpl.
  destruct (net _) as [r|error]; [discriminate|].
  intros [= <-]. eauto.
Qed.

Lemma post_throws {T} (net : Transport T) endpoint body w t :
  fst (post net endpoint body w) = inl t ->
  t = notAuthenticated \/ exists error, t = IikoThrown (handleError error).
Proof.
  destruct (accessToken (this w)) as [tok|] eqn:Ht.
  - destruct (truthy tok) eqn:Htruthy.
    + rewrite (post_outcome _ _ _ _ tok) by assumption. simpl.
      destruct (net _) as [r|error]; [discriminate|].
      intros [= <-]. right. eauto.
    + rewrite post_guarded by (rewrite Ht; exact Htruthy).
      intros [= <-]. left. reflexivity.
  - rewrite post_guarded by (rewrite Ht; reflexivity).
    intros [= <-]. left. reflexivity.
Qed.

(** X1. Whatever a call of the public interface throws is one of the
    typed errors, never a plain [Error], and it is classified: its
    [name] is that of its class, it is an [IikoAuthError] exactly when
    its status code is 401 and an [IikoRateLimitError] exactly when it
    is 429, with the error codes of these classes, and it has a
    [retryAfter] only as an [IikoRateLimitError]. *)
Theorem thrown_errors_are_classified (c : Call) (w : World) (t : Thrown) :
  fst (call c w) = inl t ->
  exists e, t = IikoThrown e /\ classified e.
Proof.
  destruct c as [net| | |net request]; simpl; unfold bind, ret.
  - rewrite authenticate_outcome.
    destruct (net _) as [r|error]; [discriminate|].
    intros [= <-]. eexists. split; [reflexivity|]. apply handleError_classified.
  - discriminate.
  - discriminate.
  - destruct (getOrganizations net request w) as [[t'|v] w'] eqn:E; [|discriminate].
    intros [= <-].
    assert (H : fst (getOrganizations net request w) = inl t') by (rewrite E; reflexivity).
    unfold getOrganizations in H. apply post_throws in H as [-> | [error ->]].
    + apply notAuthenticated_classified.
    + eexists. split; [reflexivity|]. apply handleError_classified.
Qed.

Lemma thrown_errors_are_classified_witness :
  exists e,
    fst (call (Authenticate (refusing 429 (lit "Rate limit exceeded")))
           (fresh sampleClient)) = inl (IikoThrown e)
    /\ classified e.
Proof.
  destruct (thrown_errors_are_classified
              (Authenticate (refusing 429 (lit "Rate limit exceeded")))
              (fresh sampleClient)
              (IikoThrown
                 (Errors.new_IikoRateLimitError (lit "Rate limit exceeded") None
                    (Some (bodyWithMessage (lit "Rate limit exceeded"))))))
    as (e & He & Hc); [reflexivity|].
  exists e. split; [rewrite <- He; reflexivity | exact Hc].
Defined.

(** X2. The error of the local guard and the error made of a server's
    401 have the same class, name, status code and error code; they
    differ in that the guard's carries no response body while the
    server's carries the body of the response. *)
Theorem guard_error_looks_like_401
    (error : AxiosError Types.ApiErrorResponse)
    (r : AxiosResponse Types.ApiErrorResponse) :
  response error = Some r ->
  status r = 401%Z ->
  exists guard,
    notAuthenticated = IikoThrown guard
    /\ Errors.class (handleError error) = Errors.class guard
    /\ Errors.name (handleError error) = Errors.name guard
    /\ Errors.statusCode (handleError error) = Errors.statusCode guard
    /\ Errors.errorCode (handleError error) = Errors.errorCode guard
    /\ Errors.response guard = None
    /\ Errors.response (handleError error) = Some (data r).
Proof.
  intros Hr Hs. eexists. split; [reflexivity|].
  destruct error as [description resp]. simpl in Hr. subst resp.
  unfold handleError. simpl. rewrite Hs. simpl. repeat split.
Qed.

Lemma guard_error_looks_like_401_witness :
  exists guard,
    notAuthenticated = IikoThrown guard
    /\ Errors.class
         (handleError (rejectedWith 401 (bodyWithMessage (lit "Invalid API key"))
                         ∅ None))
       = Errors.class guard
    /\ Errors.response guard = None.
Proof.
  destruct (guard_error_looks_like_401
              (rejectedWith 401 (bodyWithMessage (lit "Invalid API key")) ∅ None)
              {| status := 401; data := bodyWithMessage (lit "Invalid API key");
                 headers := ∅ |})
    as (guard & Hg & Hc & _ & _ & _ & Hr & _); [reflexivity | reflexivity |].
  exists guard. split; [exact Hg|]. split; [exact Hc | exact Hr].
Defined.

(** X3. A [retry-after] header counts on a 429 only: on any other
    status, and without a response, the error has no [retryAfter],
    whatever the headers say. *)
Theorem retry_after_only_on_429 (error : AxiosError Types.ApiErrorResponse) :
  (forall r, response error = Some r -> status r <> 429%Z) ->
  Errors.retryAfter (handleError error) = None.
Proof.
  intros H. destruct error as [description [r|]]; unfold handleError; simpl.
  - specialize (H r eq_refl). simpl in H. apply Z.eqb_neq in H.
    destruct (status r =? 401)%Z; [reflexivity|].
    rewrite H. reflexivity.
  - reflexivity.
Qed.

Lemma retry_after_only_on_429_witness :
  Errors.retryAfter (handleError unavailable) = None.
Proof.
  apply (retry_after_only_on_429 unavailable).
  intros r [= <-]. discriminate.
Defined.

(** ** What [parseInt] makes of a [retry-after] header *)

Section ParseIntFurther.

Lemma readDigits_seen_some (s : JSString) (acc : N) :
  exists v, readDigits s acc true = Some v.
Proof.
  revert acc. induction s as [|c s IH]; intros acc; simpl; [eauto|].
  destruct (digitValue c); [apply IH | eauto].
Qed.

Lemma readDigits_none (s : JSString) (acc : N) :
  readDigits s acc false = None <-> beginsWithDigit s = false.
Proof.
  destruct s as [|c s]; simpl; [tauto|].
  destruct (digitValue c) as [d|]; [|tauto].
  destruct (readDigits_seen_some s (10 * acc + d)) as [v ->].
  split; discriminate.
Qed.

Lemma readDigits_stop (rest : JSString) (acc : N) :
  beginsWithDigit rest = false -> readDigits rest acc true = Some acc.
Proof.
  destruct rest as [|c rest]; simpl; [reflexivity|].
  destruct (digitValue c); [discriminate | reflexivity].
Qed.

Lemma readDigits_app_acc (d : Decimal.uint) (acc : positive) (rest : JSString) :
  readDigits (codeUnits d ++ rest) (N.pos acc) true
  = readDigits rest (N.pos (Pos.of_uint_acc d acc)) true.
Proof.
  revert acc.
  induction d; intros acc; simpl codeUnits;
    [reflexivity | ..];
    cbn [Datatypes.app readDigits Pos.of_uint_acc];
    match goal with
    | |- context [digitValue ?c] =>
        let v := eval vm_compute in (digitValue c) in
        change (digitValue c) with v; cbv iota beta
    end;
    rewrite <- IHd; f_equal; lia.
Qed.

Lemma readDigits_app_seen (d : Decimal.uint) (rest : JSString) :
  readDigits (codeUnits d ++ rest) 0 true
  = readDigits rest (N.of_uint d) true.
Proof.
  induction d; simpl codeUnits;
    [reflexivity | ..];
    cbn [Datatypes.app readDigits];
    match goal with
    | |- context [digitValue ?c] =>
        let v := eval vm_compute in (digitValue c) in
        change (digitValue c) with v; cbv iota beta
    end;
    [exact IHd | ..];
    match goal with
    | |- readDigits _ ?a _ = _ =>
        let v := eval vm_compute in a in change a with v
    end;
    apply readDigits_app_acc.
Qed.

(** Digits are read up to the first code unit that is not one. *)
Lemma readDigits_decimal (n : N) (rest : JSString) :
  beginsWithDigit rest = false ->
  readDigits (decimal n ++ rest) 0 false = Some n.
Proof.
  intros Hrest. unfold decimal.
  assert (H : readDigits (codeUnits (N.to_uint n) ++ rest) 0 false
              = readDigits (codeUnits (N.to_uint n) ++ rest) 0 true).
  { destruct n as [|p]; [reflexivity|].
    pose proof (DecimalPos.Unsigned.to_uint_nonnil p) as Hnil.
    simpl N.to_uint. destruct (Pos.to_uint p); [congruence | reflexivity ..]. }
  rewrite H, readDigits_app_seen, readDigits_stop by exact Hrest.
  destruct n as [|p]; [reflexivity|].
  unfold N.to_uint, N.of_uint. rewrite DecimalPos.Unsigned.of_to. reflexivity.
Qed.

Lemma decimal_beginsWithDigit (n : N) (rest : JSString) :
  beginsWithDigit (decimal n ++ rest) = true.
Proof.
  unfold decimal. destruct n as [|p]; [reflexivity|].
  pose proof (DecimalPos.Unsigned.to_uint_nonnil p) as Hnil.
  simpl N.to_uint. destruct (Pos.to_uint p); [congruence | reflexivity ..].
Qed.

(** A digit is neither white space nor a sign. *)
Lemma digit_plain (c : N) :
  digitValue c <> None ->
  isWhiteSpace c = false /\ c <> 0x2B /\ c <> 0x2D.
Proof.
  unfold digitValue.
  destruct ((0x30 <=? c) && (c <=? 0x39)) eqn:E; [|congruence].
  intros _. apply andb_prop in E as [Hlo Hhi].
  apply N.leb_le in Hlo, Hhi.
  assert (Hc : c = 48 \/ c = 49 \/ c = 50 \/ c = 51 \/ c = 52
               \/ c = 53 \/ c = 54 \/ c = 55 \/ c = 56 \/ c = 57) by lia.
  repeat destruct Hc as [-> | Hc]; try subst c; repeat split; discriminate.
Qed.

Lemma trimStart_app_blank (ws s : JSString) :
  allWhiteSpace ws = true -> trimStart (ws ++ s) = trimStart s.
Proof.
  unfold allWhiteSpace.
  induction ws as [|c ws IH]; simpl; [reflexivity|].
  intros H. apply andb_prop in H as [Hc Hws]. rewrite Hc. apply IH, Hws.
Qed.

Lemma roundToDouble_number (negative : bool) (m : N) :
  roundToDouble negative m <> NaN.
Proof.
  unfold roundToDouble. destruct (m <? 2 ^ 53); [discriminate|].
  cbv zeta. destruct (_ <? 2 ^ 1024); discriminate.
Qed.

(** [parseInt] gives NaN exactly when, past the leading white space and
    one sign, the string does not begin with a digit. *)
Lemma parseInt10_NaN (s : JSString) :
  parseInt10 s = NaN <-> beginsWithDigit (afterSign (trimStart s)) = false.
Proof.
  unfold parseInt10. cbv zeta.
  destruct (trimStart s) as [|c t]; [simpl; split; reflexivity|].
  unfold afterSign.
  set (S := if (c =? 0x2B) || (c =? 0x2D) then t else c :: t).
  rewrite <- (readDigits_none S 0).
  destruct (readDigits S 0 false) as [m|]; [|split; reflexivity].
  split; [|discriminate].
  destruct (m =? 0); [discriminate|].
  intros H. exfalso. exact (roundToDouble_number _ _ H).
Qed.

(** White space, then a sign or none, then the numeral of [n], then
    anything that does not go on with a digit: [parseInt] reads [n] with
    its sign. *)
Lemma parseInt10_numeral (ws : JSString) (sg : Sign) (n : N) (rest : JSString) :
  allWhiteSpace ws = true ->
  beginsWithDigit rest = false ->
  parseInt10 (ws ++ signUnits sg ++ decimal n ++ rest)
  = roundToDouble (isMinus sg) n.
Proof.
  intros Hws Hrest.
  assert (Hzero : forall negative,
             (if n =? 0 then Finite negative 0 else roundToDouble negative n)
             = roundToDouble negative n).
  { intros negative. destruct (N.eqb_spec n 0) as [-> | _]; reflexivity. }
  unfold parseInt10. rewrite trimStart_app_blank by exact Hws.
  destruct sg; simpl signUnits; cbn [Datatypes.app trimStart].
  - pose proof (decimal_beginsWithDigit n rest) as Hd.
    destruct (decimal n ++ rest) as [|c t] eqn:E; [discriminate Hd|].
    simpl in Hd. destruct (digitValue c) eqn:Hc; [|discriminate Hd].
    destruct (digit_plain c) as (Hw & Hp & Hm); [congruence|].
    apply N.eqb_neq in Hp, Hm.
    cbn [trimStart]. rewrite Hw, Hp, Hm. cbn [orb].
    rewrite <- E, readDigits_decimal by exact Hrest. apply Hzero.
  - change (isWhiteSpace 0x2B) with false. cbv iota.
    change (0x2B =? 0x2D) with false. change (0x2B =? 0x2B) with true.
    cbn [orb]. rewrite readDigits_decimal by exact Hrest. apply Hzero.
  - change (isWhiteSpace 0x2D) with false. cbv iota.
    change (0x2D =? 0x2D) with true. change (0x2D =? 0x2B) with false.
    cbn [orb]. rewrite readDigits_decimal by exact Hrest. apply Hzero.
Qed.

End ParseIntFurther.

(** X4. On a 429 with a [retry-after] header, [retryAfter] is NaN
    exactly when the header is not empty and, past its leading white
    space and one sign, does not begin with a digit: an HTTP date, for
    one. *)
Theorem retry_after_NaN_exactly
    (body : Types.ApiErrorResponse) (hs : gmap JSString JSString)
    (description : option JSString) (h : JSString) :
  hs !! lit "retry-after" = Some h ->
  Errors.retryAfter (handleError (rejectedWith 429 body hs description))
  = Some NaN
  <-> h <> [] /\ beginsWithDigit (afterSign (trimStart h)) = false.
Proof.
  intros Hh. rewrite retryAfter_rejected, Hh.
  destruct h as [|c h]; simpl isEmptyString; cbv iota.
  - split; [discriminate | intros [H _]; congruence].
  - rewrite <- parseInt10_NaN. split.
    + intros [= H]. split; [discriminate | exact H].
    + intros [_ H]. rewrite H. reflexivity.
Qed.

Lemma retry_after_NaN_exactly_witness :
  Errors.retryAfter
    (handleError (rateLimited (Some (lit "Wed, 21 Oct 2015 07:28:00 GMT"))))
  = Some NaN.
Proof.
  refine (proj2 (retry_after_NaN_exactly
                   (bodyWithMessage (lit "Rate limit exceeded"))
                   {[ lit "retry-after" := lit "Wed, 21 Oct 2015 07:28:00 GMT" ]}
                   (Some (lit "Request failed with status code 429"))
                   (lit "Wed, 21 Oct 2015 07:28:00 GMT")
                   _) _).
  - reflexivity.
  - split; [discriminate | reflexivity].
Defined.

(** X5. On a 429 whose [retry-after] header is white space, then a sign
    or none, then the decimal numeral of [n] below 2^53, then anything
    that does not go on with a digit, [retryAfter] is [n] with that
    sign: what follows the number is ignored, and a negative number, or
    -0, is passed on as it is. *)
Theorem retry_after_reads_leading_number
    (body : Types.ApiErrorResponse) (hs : gmap JSString JSString)
    (description : option JSString)
    (ws : JSString) (sg : Sign) (n : N) (rest : JSString) :
  hs !! lit "retry-after" = Some (ws ++ signUnits sg ++ decimal n ++ rest) ->
  allWhiteSpace ws = true ->
  beginsWithDigit rest = false ->
  n < 2 ^ 53 ->
  Errors.retryAfter (handleError (rejectedWith 429 body hs description))
  = Some (Finite (isMinus sg) n).
Proof.
  intros Hh Hws Hrest Hn. rewrite retryAfter_rejected, Hh.
  rewrite parseInt10_numeral, roundToDouble_exact by assumption.
  destruct (ws ++ signUnits sg ++ decimal n ++ rest) eqn:E; [|reflexivity].
  exfalso.
  apply app_eq_nil in E as [_ E]. apply app_eq_nil in E as [_ E].
  pose proof (decimal_beginsWithDigit n rest) as Hd.
  rewrite E in Hd. discriminate Hd.
Qed.

Lemma retry_after_reads_leading_number_witness :
  Errors.retryAfter (handleError (rateLimited (Some (lit " 120, 60"))))
  = Some (Finite false 120)
  /\ Errors.retryAfter (handleError (rateLimited (Some (lit "-5"))))
     = Some (Finite true 5).
Proof.
  split.
  - apply (retry_after_reads_leading_number
             (bodyWithMessage (lit "Rate limit exceeded"))
             {[ lit "retry-after" := lit " 120, 60" ]}
             (Some (lit "Request failed with status code 429"))
             (lit " ") Unsigned 120 (lit ", 60"));
      first [reflexivity | lia].
  - apply (retry_after_reads_leading_number
             (bodyWithMessage (lit "Rate limit exceeded"))
             {[ lit "retry-after" := lit "-5" ]}
             (Some (lit "Request failed with status code 429"))
             [] Minus 5 []);
      first [reflexivity | lia].
Defined.

(** ** Configuration *)

Lemma new_IikoClient_key_and_headers
    (key : JSString) (options : option Types.IikoClientOptions)
    (client : IikoClient) :
  new_IikoClient key options = inr client ->
  apiKey client = key
  /\ defaultHeaders (httpClient client)
     = {[ lit "Content-Type" := lit "application/json" ]}.
Proof.
  unfold new_IikoClient. destruct (_ || _); [discriminate|].
  intros [= <-]. split; reflexivity.
Qed.

(** X6. A client that was constructed keeps the key as it was given,
    white space around it included; the base URL and the timeout it
    hands to [axios.create] are the ones of the options when given, were
    they the empty string or zero, and the defaults
    (https://api-ru.iiko.services, 30000) when not given or when no
    options were given at all; the content type it hands over is JSON. *)
Theorem construction_applies_defaults
    (key : JSString) (options : option Types.IikoClientOptions)
    (client : IikoClient) :
  new_IikoClient key options = inr client ->
  apiKey client = key
  /\ baseURL (httpClient client)
     = match options ≫= Types.baseUrl with
       | Some url => url
       | None => lit "https://api-ru.iiko.services"
       end
  /\ timeout (httpClient client)
     = match options ≫= Types.timeout with
       | Some ms => ms
       | None => 30000%Z
       end
  /\ defaultHeaders (httpClient client) !! lit "Content-Type"
     = Some (lit "application/json").
Proof.
  unfold new_IikoClient. destruct (_ || _); [discriminate|].
  intros [= <-]. simpl.
  destruct options as [[[url|] [ms|]]|]; repeat split.
Qed.

Lemma construction_applies_defaults_witness :
  exists client,
    new_IikoClient (lit " key ")
      (Some {| Types.baseUrl := Some []; Types.timeout := None |})
    = inr client
    /\ apiKey client = lit " key "
    /\ baseURL (httpClient client) = []
    /\ timeout (httpClient client) = 30000%Z.
Proof.
  eexists. split; [reflexivity|].
  destruct (construction_applies_defaults (lit " key ")
              (Some {| Types.baseUrl := Some []; Types.timeout := None |})
              _ eq_refl)
    as (Hkey & Hurl & Hms & _).
  split; [exact Hkey|]. split; [exact Hurl | exact Hms].
Defined.

Lemma accessTokenRequest_withToken (c : IikoClient) (t : option JSString) :
  accessTokenRequest (withToken c t) = accessTokenRequest c.
Proof. reflexivity. Qed.

(** [authenticate] sends one request, whether it returns or throws. *)
Lemma authenticate_wire (net : Transport JSString) (w : World) :
  wire (snd (authenticate net w)) = wire w ++ [accessTokenRequest (this w)].
Proof.
  rewrite authenticate_outcome. destruct (net _); reflexivity.
Qed.

(** X7. Whatever token a constructed client holds, and whether the call
    returns or throws, [authenticate()] sends exactly one request: a
    POST to /api/1/access_token whose body holds the key exactly as it
    was given to the constructor, with the JSON content type and
    without an [Authorization] header: the stored token is not sent. *)
Theorem authenticate_sends_the_key
    (key : JSString) (options : option Types.IikoClientOptions)
    (client : IikoClient) (stored : option JSString)
    (before : list Request) (net : Transport JSString) :
  new_IikoClient key options = inr client ->
  exists req,
    wire (snd (authenticate net {| this := withToken client stored;
                                   wire := before |}))
    = before ++ [req]
    /\ req_method req = POST
    /\ req_url req = lit "/api/1/access_token"
    /\ req_data req = Some (AccessTokenBody key)
    /\ authorization req = None
    /\ req_headers req !! lit "Content-Type" = Some (lit "application/json").
Proof.
  intros Hnew.
  destruct (new_IikoClient_key_and_headers _ _ _ Hnew) as (Hkey & Hhs).
  exists (accessTokenRequest client).
  rewrite authenticate_wire. simpl. rewrite accessTokenRequest_withToken.
  split; [reflexivity|]. split; [reflexivity|]. split; [reflexivity|].
  unfold authorization, accessTokenRequest, mergeConfig. simpl.
  rewrite Hkey, Hhs. repeat split.
Qed.

Lemma authenticate_sends_the_key_witness :
  exists req,
    wire (snd (authenticate unreachable
                 {| this := withToken sampleClient (Some (lit "T"));
                    wire := [] |}))
    = [req]
    /\ req_data req = Some (AccessTokenBody (lit "key"))
    /\ authorization req = None.
Proof.
  destruct (authenticate_sends_the_key (lit "key") None sampleClient
              (Some (lit "T")) [] unreachable eq_refl)
    as (req & Hwire & _ & _ & Hbody & Hauth & _).
  exists req. split; [exact Hwire|]. split; [exact Hbody | exact Hauth].
Defined.

(** ** Invariants of a session *)

Section SessionInvariants.

Implicit Types (w : World) (c : Call) (calls : list Call).

(** How one call changes the stored token. *)
Lemma call_token c w :
  accessToken (this (snd (call c w)))
  = match c, fst (call c w) with
    | Authenticate _, inr (AuthValue r) => Some (Types.token r)
    | _, _ => accessToken (this w)
    end.
Proof.
  destruct c as [net| | |net request]; simpl.
  - unfold bind, ret. rewrite authenticate_outcome.
    destruct (net _); reflexivity.
  - reflexivity.
  - reflexivity.
  - rewrite bind_ret_world, getOrganizations_frame.
    unfold bind, ret.
    destruct (getOrganizations net request w) as [[t|v] w']; reflexivity.
Qed.

(** No call changes the key or the http client. *)
Lemma call_config c w :
  apiKey (this (snd (call c w))) = apiKey (this w)
  /\ httpClient (this (snd (call c w))) = httpClient (this w).
Proof.
  destruct c as [net| | |net request]; simpl.
  - rewrite bind_ret_world, authenticate_outcome.
    destruct (net _); split; reflexivity.
  - split; reflexivity.
  - split; reflexivity.
  - rewrite bind_ret_world, getOrganizations_frame. split; reflexivity.
Qed.

(** What one call adds to the wire. *)
Lemma call_wire c w :
  exists new,
    wire (snd (call c w)) = wire w ++ new
    /\ (length new <= if isNetworkCall c then 1 else 0)%nat
    /\ ((if isAuthenticateCall c then 1 else 0) <= length new)%nat
    /\ forall req, In req new ->
         (req = accessTokenRequest (this w) /\ isAuthenticateCall c = true)
         \/ (exists t body,
               accessToken (this w) = Some t /\ t <> []
               /\ req = bearerRequest (this w) POST (lit "/api/1/organizations")
                          body t).
Proof.
  destruct c as [net| | |net request]; simpl.
  - rewrite bind_ret_world, authenticate_wire.
    exists [accessTokenRequest (this w)]. repeat split; simpl; try lia.
    intros req [<- | []]. left. split; reflexivity.
  - exists []. rewrite app_nil_r. repeat split; simpl; lia.
  - exists []. rewrite app_nil_r. repeat split; simpl; lia.
  - rewrite bind_ret_world. unfold getOrganizations.
    destruct (accessToken (this w)) as [t|] eqn:Ht.
    + destruct (truthy t) eqn:Htruthy.
      * rewrite (post_outcome _ _ _ _ t) by assumption. simpl.
        eexists [_]. split; [reflexivity|]. repeat split; simpl; try lia.
        intros req [<- | []]. right. exists t. eexists.
        split; [reflexivity|]. split; [|reflexivity].
        intros ->. discriminate Htruthy.
      * rewrite post_guarded by (rewrite Ht; exact Htruthy).
        exists []. rewrite app_nil_r. repeat split; simpl; lia.
    + rewrite post_guarded by (rewrite Ht; reflexivity).
      exists []. rewrite app_nil_r. repeat split; simpl; lia.
Qed.

(** X8. Over a whole session, successful authentications included, the
    key and the configuration of the http client stay what they were. *)
Theorem session_keeps_key_and_configuration calls w :
  apiKey (this (snd (run calls w))) = apiKey (this w)
  /\ httpClient (this (snd (run calls w))) = httpClient (this w).
Proof.
  revert w. induction calls as [|c calls IH]; intros w; [split; reflexivity|].
  rewrite run_cons. simpl.
  destruct (IH (snd (call c w))) as [Hk Hc].
  destruct (call_config c w) as [Hk' Hc'].
  split; congruence.
Qed.

(** X9. The token a session leaves behind is the one returned by the
    last [authenticate()] of the session that returned, and the token
    from before the session when none did. *)
Theorem session_token_is_last_authenticated calls w :
  accessToken (this (snd (run calls w)))
  = lastToken (fst (run calls w)) (accessToken (this w)).
Proof.
  revert w. induction calls as [|c calls IH]; intros w; [reflexivity|].
  rewrite run_cons. cbn [fst snd]. rewrite IH.
  unfold lastToken. cbn [fold_left]. f_equal.
  rewrite call_token. destruct c; reflexivity.
Qed.

(** X10. A session only adds to the wire, at most one request for each
    [authenticate] or [getOrganizations] call and none for the reads,
    and at least one for each [authenticate] call: nothing is retried,
    and no authentication is answered from a cache. *)
Theorem session_wire_grows_call_by_call calls w :
  exists new,
    wire (snd (run calls w)) = wire w ++ new
    /\ (length new <= length (List.filter isNetworkCall calls))%nat
    /\ (length (List.filter isAuthenticateCall calls) <= length new)%nat.
Proof.
  revert w. induction calls as [|c calls IH]; intros w.
  - exists []. rewrite app_nil_r. repeat split; simpl; lia.
  - rewrite run_cons. simpl snd.
    destruct (call_wire c w) as (first & Hf & Hle & Hge & _).
    destruct (IH (snd (call c w))) as (more & Hm & Hle' & Hge').
    exists (first ++ more). rewrite Hm, Hf, app_assoc.
    split; [reflexivity|]. rewrite length_app.
    cbn [List.filter].
    destruct (isNetworkCall c), (isAuthenticateCall c); simpl in *; lia.
Qed.

End SessionInvariants.

(** ** What goes on the wire *)

Section Wire.

Implicit Types (w : World) (c : Call) (calls : list Call).

(** Every request of a session is the token request or a bearer
    request of a client with the key and the configuration the session
    began with. *)
Lemma run_wire calls w :
  exists new,
    wire (snd (run calls w)) = wire w ++ new
    /\ forall req, In req new ->
         exists client,
           apiKey client = apiKey (this w)
           /\ httpClient client = httpClient (this w)
           /\ (req = accessTokenRequest client
               \/ exists t body,
                    t <> []
                    /\ req = bearerRequest client POST
                               (lit "/api/1/organizations") body t).
Proof.
  revert w. induction calls as [|c calls IH]; intros w.
  - exists []. rewrite app_nil_r. split; [reflexivity | intros req []].
  - rewrite run_cons. simpl snd.
    destruct (call_wire c w) as (first & Hf & _ & _ & Hfirst).
    destruct (IH (snd (call c w))) as (more & Hm & Hmore).
    destruct (call_config c w) as [Hk Hc].
    exists (first ++ more). rewrite Hm, Hf, app_assoc.
    split; [reflexivity|].
    intros req Hin. apply in_app_or in Hin as [Hin | Hin].
    + exists (this w). split; [reflexivity|]. split; [reflexivity|].
      destruct (Hfirst req Hin) as [[-> _] | (t & body & _ & Ht & ->)];
        [left; reflexivity | right; eauto].
    + destruct (Hmore req Hin) as (client & Hk' & Hc' & Hreq).
      exists client. split; [congruence|]. split; [congruence | exact Hreq].
Qed.





(** X12. Every request a constructed client sends over a session is a
    POST to the base URL and with the timeout the client was
    constructed with, and has the JSON content type. *)
Theorem session_requests_follow_configuration
    (key : JSString) (options : option Types.IikoClientOptions)
    (client : IikoClient) calls :
  new_IikoClient key options = inr client ->
  Forall (configured client) (wire (snd (run calls (fresh client)))).
Proof.
  intros Hnew.
  destruct (new_IikoClient_key_and_headers _ _ _ Hnew) as (_ & Hhs).
  destruct (run_wire calls (fresh client)) as (new & -> & Hnew').
  simpl. apply Forall_forall. intros req Hin.
  apply list_elem_of_In in Hin.
  destruct (Hnew' req Hin) as (c' & _ & Hc & [-> | (t & body & Ht & ->)]);
    simpl in Hc; unfold configured, accessTokenRequest, bearerRequest, mergeConfig;
    simpl; rewrite Hc, Hhs; repeat split.
Qed.

Lemma session_requests_follow_configuration_witness :
  Forall (configured sampleClient)
    (wire (snd (run (signInThenList (lit "T")) (fresh sampleClient)))).
Proof.
  apply (session_requests_follow_configuration (lit "key") None sampleClient
           (signInThenList (lit "T"))).
  reflexivity.
Defined.

End Wire.

(** ** The guard, the bearer and the order of calls *)

Lemma sent_neq (w : World) (req : Request) : wire (sent w req) <> wire w.
Proof.
  unfold sent. simpl. intros H.
  apply (f_equal length) in H. rewrite length_app in H. simpl in H. lia.
Qed.

(** X13. [getOrganizations] leaves the wire as it is exactly when the
    stored token is null or the empty string, and it is then that it
    throws the guard's error; with any other token one request goes
    out. *)
Theorem guard_fires_exactly_without_token
    (net : Transport Types.GetOrganizationsResponse)
    (request : option Types.GetOrganizationsRequest) (w : World) :
  (wire (snd (getOrganizations net request w)) = wire w
   <-> accessToken (this w) = None \/ accessToken (this w) = Some [])
  /\ (getOrganizations net request w = (inl notAuthenticated, w)
      <-> accessToken (this w) = None \/ accessToken (this w) = Some [])
  /\ (wire (snd (getOrganizations net request w)) = wire w
      \/ exists req, wire (snd (getOrganizations net request w)) = wire w ++ [req]).
Proof.
  unfold getOrganizations.
  destruct (accessToken (this w)) as [[|c t]|] eqn:Ht.
  - rewrite post_guarded by (rewrite Ht; reflexivity). simpl.
    repeat split; auto.
  - rewrite (post_outcome _ _ _ _ (c :: t)) by (exact Ht || reflexivity).
    simpl snd. split; [|split].
    + split; [intros H; exfalso; exact (sent_neq _ _ H)|].
      intros [H | H]; discriminate H.
    + split; [|intros [H | H]; discriminate H].
      intros H. exfalso. apply (f_equal snd) in H. simpl in H.
      apply (f_equal wire) in H. exact (sent_neq _ _ H).
    + right. eexists. reflexivity.
  - rewrite post_guarded by (rewrite Ht; reflexivity). simpl.
    repeat split; auto.
Qed.

(** The wire of the session of X14, through the requests the methods
    build. *)
Lemma authenticate_list_twice_wire
    (client : IikoClient)
    (net1 net2 : Transport JSString) (r1 r2 : AxiosResponse JSString)
    (netA netB : Transport Types.GetOrganizationsResponse)
    (requestA requestB : Types.GetOrganizationsRequest) :
  accessToken client = None ->
  net1 (accessTokenRequest client) = inl r1 -> data r1 <> [] ->
  net2 (accessTokenRequest client) = inl r2 -> data r2 <> [] ->
  wire (snd (run [ Authenticate net1;
                   GetOrganizations netA (Some requestA);
                   Authenticate net2;
                   GetOrganizations netB (Some requestB) ]
               (fresh client)))
  = [ accessTokenRequest client;
      bearerRequest client POST (lit "/api/1/organizations")
        (Some (OrganizationsBody requestA)) (data r1);
      accessTokenRequest client;
      bearerRequest client POST (lit "/api/1/organizations")
        (Some (OrganizationsBody requestB)) (data r2) ].
Proof.
  intros Hnone Hn1 Ht1 Hn2 Ht2.
  assert (Htruthy : forall t : JSString, t <> [] -> truthy t = true)
    by (intros [|c t] H; [congruence | reflexivity]).
  repeat rewrite run_cons. cbn [run snd]. cbn [call].
  rewrite !bind_ret_world.
  (* first authenticate *)
  set (w1 := snd (authenticate net1 (fresh client))).
  assert (Hw1 : w1 = {| this := withToken client (Some (data r1));
                        wire := [accessTokenRequest client] |}).
  { subst w1. rewrite authenticate_outcome. simpl. rewrite Hn1. reflexivity. }
  (* first listing *)
  set (w2 := snd (getOrganizations netA (Some requestA) w1)).
  assert (Hw2 : w2 = sent w1 (bearerRequest client POST (lit "/api/1/organizations")
                                (Some (OrganizationsBody requestA)) (data r1))).
  { subst w2. unfold getOrganizations.
    rewrite (post_outcome _ _ _ _ (data r1));
      [| rewrite Hw1; reflexivity | apply Htruthy, Ht1].
    rewrite Hw1. reflexivity. }
  (* second authenticate *)
  set (w3 := snd (authenticate net2 w2)).
  assert (Hw3 : w3 = {| this := withToken client (Some (data r2));
                        wire := wire w2 ++ [accessTokenRequest client] |}).
  { subst w3. rewrite authenticate_outcome.
    rewrite Hw2, Hw1. simpl. rewrite accessTokenRequest_withToken, Hn2.
    reflexivity. }
  (* second listing *)
  unfold getOrganizations.
  rewrite (post_outcome _ _ _ _ (data r2));
    [| rewrite Hw3; reflexivity | apply Htruthy, Ht2].
  rewrite Hw3, Hw2, Hw1. reflexivity.
Qed.

(** X14. The bearer follows the authentication. A constructed client
    authenticates and the server answers the token request with a
    non-empty token [t1]; it lists the organizations; it authenticates
    again and the answer is a non-empty token [t2]; it lists again.
    Then exactly four requests go out, all POST, in this order: the
    token request (to /api/1/access_token, the key in its body, no
    [Authorization] header), a listing (to /api/1/organizations, the
    first request record as body) bearing [t1], the token request
    again, and a listing with the second request record bearing [t2]. *)
Theorem bearer_follows_authenticate
    (key : JSString) (options : option Types.IikoClientOptions)
    (client : IikoClient)
    (net1 net2 : Transport JSString) (r1 r2 : AxiosResponse JSString)
    (netA netB : Transport Types.GetOrganizationsResponse)
    (requestA requestB : Types.GetOrganizationsRequest) :
  new_IikoClient key options = inr client ->
  (forall req, req_url req = lit "/api/1/access_token" -> net1 req = inl r1) ->
  data r1 <> [] ->
  (forall req, req_url req = lit "/api/1/access_token" -> net2 req = inl r2) ->
  data r2 <> [] ->
  exists q1 q2 q3 q4,
    wire (snd (run [ Authenticate net1;
                     GetOrganizations netA (Some requestA);
                     Authenticate net2;
                     GetOrganizations netB (Some requestB) ]
                 (fresh client)))
    = [q1; q2; q3; q4]
    /\ (req_method q1 = POST
        /\ req_url q1 = lit "/api/1/access_token"
        /\ req_data q1 = Some (AccessTokenBody key)
        /\ authorization q1 = None)
    /\ (req_method q2 = POST
        /\ req_url q2 = lit "/api/1/organizations"
        /\ req_data q2 = Some (OrganizationsBody requestA)
        /\ authorization q2 = Some (lit "Bearer " ++ data r1))
    /\ q3 = q1
    /\ (req_method q4 = POST
        /\ req_url q4 = lit "/api/1/organizations"
        /\ req_data q4 = Some (OrganizationsBody requestB)
        /\ authorization q4 = Some (lit "Bearer " ++ data r2)).
Proof.
  intros Hnew Hn1 Ht1 Hn2 Ht2.
  destruct (new_IikoClient_key_and_headers _ _ _ Hnew) as (Hkey & Hhs).
  pose proof (new_IikoClient_token _ _ _ Hnew) as Hnone.
  do 4 eexists. split.
  - apply (authenticate_list_twice_wire client net1 net2 r1 r2);
      first [assumption | apply Hn1; reflexivity | apply Hn2; reflexivity].
  - unfold authorization, accessTokenRequest, bearerRequest, mergeConfig.
    simpl. rewrite Hkey, Hhs.
    repeat split; apply lookup_union_Some_l; apply lookup_singleton_eq.
Qed.

Lemma bearer_follows_authenticate_witness :
  exists q1 q2 q3 q4,
    wire (snd (run [ Authenticate (serving (lit "T1"));
                     GetOrganizations (serving twoOrganizations)
                       (Some Types.emptyRequest);
                     Authenticate (serving (lit "T2"));
                     GetOrganizations (serving twoOrganizations)
                       (Some Types.emptyRequest) ]
                 (fresh sampleClient)))
    = [q1; q2; q3; q4]
    /\ authorization q1 = None
    /\ authorization q2 = Some (lit "Bearer T1")
    /\ authorization q3 = None
    /\ authorization q4 = Some (lit "Bearer T2").
Proof.
  destruct (bearer_follows_authenticate (lit "key") None sampleClient
              (serving (lit "T1")) (serving (lit "T2"))
              {| status := 200; data := lit "T1"; headers := ∅ |}
              {| status := 200; data := lit "T2"; headers := ∅ |}
              (serving twoOrganizations) (serving twoOrganizations)
              Types.emptyRequest Types.emptyRequest)
    as (q1 & q2 & q3 & q4 & Hwire & (_ & _ & _ & H1) & (_ & _ & _ & H2)
        & H3 & (_ & _ & _ & H4));
    [reflexivity | reflexivity | discriminate | reflexivity | discriminate |].
  exists q1, q2, q3, q4. split; [exact Hwire|].
  split; [exact H1|]. split; [exact H2|].
  split; [rewrite H3; exact H1 | exact H4].
Defined.

(** X15. On a client holding a non-empty token [t], the protected [get]
    sends one GET to the endpoint, without a body and bearing [t]; it
    returns the body of the response, or throws what [handleError]
    makes of the rejection; the client object is as before. *)
Theorem get_sends_bearer {T : Type}
    (net : Transport T) (endpoint : JSString) (w : World) (t : JSString) :
  accessToken (this w) = Some t ->
  t <> [] ->
  exists req,
    get net endpoint w
    = (match net req with
       | inl r => inr (data r)
       | inr error => inl (IikoThrown (handleError error))
       end,
       {| this := this w; wire := wire w ++ [req] |})
    /\ req_method req = GET
    /\ req_url req = endpoint
    /\ req_data req = None
    /\ authorization req = Some (lit "Bearer " ++ t)
    /\ req_baseURL req = baseURL (httpClient (this w))
    /\ req_timeout req = timeout (httpClient (this w)).
Proof.
  intros Ht Hne.
  assert (Htruthy : truthy t = true) by (destruct t; [congruence | reflexivity]).
  exists (bearerRequest (this w) GET endpoint None t).
  rewrite (get_outcome net endpoint w t Ht Htruthy).
  split; [reflexivity|]. do 3 (split; [reflexivity|]).
  split; [|split; reflexivity].
  unfold authorization, bearerRequest, mergeConfig. simpl.
  apply lookup_union_Some_l. apply lookup_singleton_eq.
Qed.

Lemma get_sends_bearer_witness :
  exists req,
    get (serving twoOrganizations) (lit "/api/1/organizations")
      {| this := withToken sampleClient (Some (lit "T")); wire := [] |}
    = (inr twoOrganizations,
       {| this := withToken sampleClient (Some (lit "T")); wire := [req] |})
    /\ req_method req = GET
    /\ req_data req = None.
Proof.
  destruct (get_sends_bearer (serving twoOrganizations)
              (lit "/api/1/organizations")
              {| this := withToken sampleClient (Some (lit "T")); wire := [] |}
              (lit "T"))
    as (req & Hget & Hm & _ & Hd & _); [reflexivity | discriminate |].
  exists req. split; [exact Hget|]. split; [exact Hm | exact Hd].
Defined.

(** ** When a client is authenticated *)

Lemma call_holds_token (c : Call) (w : World) :
  match accessToken (this (snd (call c w))) with Some _ => true | None => false end
  = match accessToken (this w) with Some _ => true | None => false end
    || authenticated (c, fst (call c w)).
Proof.
  rewrite call_token.
  destruct c as [net| | |net request]; cbn [authenticated];
    try (rewrite orb_false_r; reflexivity).
  (* an [authenticate()] that returns, returns an [AuthValue] *)
  destruct (fst (call (Authenticate net) w)) as [t|[]] eqn:E;
    try (rewrite orb_false_r; reflexivity);
    try (rewrite orb_true_r; reflexivity);
    exfalso; simpl in E; unfold bind, ret in E;
    rewrite authenticate_outcome in E; destruct (net _); discriminate E.
Qed.

(** X16. Where every answer to [authenticate()] is a string, which is
    the type the source gives the response body ([post<string>]) and
    the type of the transport of an [Authenticate] call here (a body
    that is not a string, null for one, is outside it): after a
    session, [isAuthenticated()] answers true exactly when the client
    held a token before the session or some [authenticate()] of the
    session returned; it leaves the world as it is. *)
Theorem authenticated_after_session (calls : list Call) (w : World) :
  isAuthenticated (snd (run calls w))
  = (inr (match accessToken (this w) with Some _ => true | None => false end
          || negb (neverAuthenticated (fst (run calls w)))),
     snd (run calls w)).
Proof.
  rewrite isAuthenticated_outcome. f_equal. f_equal.
  revert w. induction calls as [|c calls IH]; intros w.
  - simpl. rewrite orb_false_r. reflexivity.
  - rewrite run_cons. cbn [fst snd]. rewrite IH, call_holds_token.
    unfold neverAuthenticated. cbn [forallb].
    destruct (accessToken (this w)), (authenticated (c, fst (call c w)));
      simpl; reflexivity.
Qed.
